(** * Combined-cycle analysis: a shallow embedding of [src/cycle_analysis.py]

    The script evaluates a Brayton gas-turbine cycle, optionally coupled to a
    bottoming Rankine cycle, from tabulated air properties.

    Modelling choices.
    - Numbers.  Python floats are rendered as exact rationals ([Q]); every
      decimal literal of the script is the same literal here.  Rounding, NaN
      and infinities are outside the model, so statements that divide are
      only meaningful where the divisor is non-zero, and the evaluators are
      meant for ratios [r > 0] (where [np.log] and [**] are finite).
    - External numerical code.  The interpolants [h] and [s] built by
      [scipy.interpolate.interp1d], [numpy.log], the float power [**] and the
      MINPACK routine behind [scipy.optimize.fsolve] are section variables:
      the development holds for every behaviour they may have.  Of
      [interp1d] itself the checks on its arguments are modelled; the spline
      it builds from accepted points is a variable too.
    - Effects.  Calls into the solver, warnings and printed lines are
      recorded in a trace; Python exceptions are an error result. *)

From Stdlib Require Import QArith Qminmax Lqa ZArith Lia List String Bool.
Import ListNotations.
Open Scope string_scope.
Open Scope list_scope.
Open Scope Q_scope.

(** ** Python results: a trace of effects and a value or a raised exception *)

Inductive exn_class : Type :=
| FileNotFoundError
| OSError
| UnicodeDecodeError
| TypeError
| ValueError
| IndexError.

Record exn : Type := PyExn { exn_cls : exn_class; exn_msg : string }.

(** What the program does besides computing: it enters [fsolve] with a
    seed, it emits a [RuntimeWarning], it prints. *)
Inductive event : Type :=
| Fsolve (x0 : Q)
| RuntimeWarning (msg : string)
| Printed (text : string).

Definition py (A : Type) : Type := (list event * (exn + A))%type.

Definition ret {A : Type} (a : A) : py A := ([], inr a).

Definition raise {A : Type} (e : exn) : py A := ([], inl e).

Definition emit (e : event) : py unit := ([e], inr tt).

Definition bind {A B : Type} (m : py A) (k : A -> py B) : py B :=
  match m with
  | (t, inl e) => (t, inl e)
  | (t, inr a) => let (t', o) := k a in (t ++ t', o)
  end.

Notation "x <- m ;; k" := (bind m (fun x => k))
  (at level 61, m at next level, right associativity).
Notation "m ;;; k" := (bind m (fun _ => k))
  (at level 61, right associativity).

(** [try: ... except e: ...]: the handler sees the exception, the trace of
    the protected block is kept. *)
Definition try_except {A : Type} (m : py A) (handler : exn -> py A) : py A :=
  match m with
  | (t, inl e) => let (t', o) := handler e in (t ++ t', o)
  | (t, inr a) => (t, inr a)
  end.

(** ** The MINPACK interface of [scipy.optimize.fsolve] *)

(** What [_root_hybr] hands back: the last iterate, MINPACK's [info] code and
    the message attached to it.  [status = 1] is convergence; 2 to 5 are the
    ways of giving up (budget of calls exhausted, [xtol] too small, no
    progress over the last Jacobian evaluations or iterations). *)
Record hybr_result : Type := HybrResult {
  res_x : Q;
  res_status : Z;
  res_message : string
}.

Definition gave_up (status : Z) : bool :=
  ((2 <=? status) && (status <=? 5))%Z.

(** The statuses on which [fsolve] returns to its caller at all. *)
Definition returns (status : Z) : bool :=
  ((1 <=? status) && (status <=? 5))%Z.

(** The warning [fsolve] leaves behind for a result it returns. *)
Definition warnings (res : hybr_result) : list event :=
  if gave_up (res_status res) then [RuntimeWarning (res_message res)] else [].

(** ** Simulation constants *)

Definition T1 : Q := 298.15.
Definition T3 : Q := 1200.0.
Definition R : Q := 0.287.

Definition eta_c : Q := 0.90.
Definition eta_t : Q := 0.90.

Definition T_stack : Q := 460.0.
Definition T4_limit : Q := 673.15.
Definition eta_rankine_1kg : Q := 36.53.
Definition q_in_rankine : Q := 2917.0.

(** ** Local variables of the evaluators *)

(** Each evaluator is a straight-line Python function; its frame of local
    variables is kept as a record, so that statements can speak about [h2],
    [w_net] and the like and not only about the returned number. *)

Module Brayton.
Record locals : Type := Locals {
  s1 : Q; T2s : Q; h1 : Q; h2s : Q; h2 : Q;
  s3 : Q; T4s : Q; h3 : Q; h4s : Q; h4 : Q;
  w_net : Q; q_in : Q
}.
End Brayton.

Module Rankine.
(** The variables bound only in the branch where the bottoming cycle runs. *)
Record locals : Type := Locals {
  h_stack : Q; q_to_rankine : Q; m_steam : Q; w_rankine : Q
}.
End Rankine.

Module Comb.
Record locals : Type := Locals {
  s1 : Q; T2s : Q; h1 : Q; h2s : Q; h2 : Q;
  s3 : Q; T4s : Q; h3 : Q; h4s : Q; h4 : Q;
  w_net_brayton : Q; q_in_brayton : Q; eta_brayton : Q;
  T4_real : Q;
  rankine : option Rankine.locals;
  eta_combined : Q
}.
End Comb.

(** ** Python and numpy built-ins used by the script *)

(** [max(a, b)]: the first argument is kept unless the second is greater. *)
Definition max2 (a b : Q) : Q := if Qlt_le_dec a b then b else a.

(** [max(values)]: a scan that replaces the candidate only by a strictly
    greater element; [ValueError] on an empty list. *)
Fixpoint max_from (best : Q) (values : list Q) : Q :=
  match values with
  | [] => best
  | x :: rest => max_from (if Qlt_le_dec best x then x else best) rest
  end.

Definition py_max (values : list Q) : py Q :=
  match values with
  | [] => raise (PyExn ValueError "max() arg is an empty sequence")
  | x :: rest => ret (max_from x rest)
  end.

(** [np.argmax(values)]: index of the first occurrence of the maximum. *)
Fixpoint argmax_from (best : Q) (best_i i : nat) (values : list Q) : nat :=
  match values with
  | [] => best_i
  | x :: rest =>
      if Qlt_le_dec best x then argmax_from x i (S i) rest
      else argmax_from best best_i (S i) rest
  end.

Definition np_argmax (values : list Q) : py nat :=
  match values with
  | [] => raise (PyExn ValueError "attempt to get argmax of an empty sequence")
  | x :: rest => ret (argmax_from x 0 1 rest)
  end.

(** [values[i]] *)
Definition index {A : Type} (values : list A) (i : nat) : py A :=
  match nth_error values i with
  | Some v => ret v
  | None => raise (PyExn IndexError "index out of bounds")
  end.

(** [[f(x) for x in xs]] *)
Fixpoint comprehension {A B : Type} (f : A -> py B) (xs : list A)
  : py (list B) :=
  match xs with
  | [] => ret []
  | x :: rest =>
      y <- f x ;;
      ys <- comprehension f rest ;;
      ret (y :: ys)
  end.

(** [np.linspace(start, stop, num)] for [num > 1]: [num] evenly spaced
    samples, both ends included. *)
Definition linspace (start stop : Q) (num : nat) : list Q :=
  let step := (stop - start) / inject_Z (Z.of_nat (num - 1)) in
  map (fun i => start + inject_Z (Z.of_nat i) * step) (seq 0 num).

Definition r_values_2 : list Q := linspace 2 30 12.

(** ** Part 0: loading the property table *)

Definition matrix : Type := list (list Q).

(** [np.zeros((rows, cols))] *)
Definition np_zeros (rows cols : nat) : matrix := repeat (repeat 0 cols) rows.

(** [numbers.reshape((rows, cols))], row-major. *)
Fixpoint reshape (rows cols : nat) (numbers : list Q) : matrix :=
  match rows with
  | O => []
  | S rows' => firstn cols numbers :: reshape rows' cols (skipn cols numbers)
  end.

(** [data.sum()] *)
Definition matrix_sum (data : matrix) : Q :=
  fold_right (fun row acc => fold_right Qplus 0 row + acc) 0 data.

(** [data[:, j]] *)
Definition column (j : nat) (data : matrix) : list Q :=
  map (fun row => nth j row 0) data.

Section DataLoading.

(** The file system as the script meets it: what [open(filename).read()]
    gives (the text, or the exception it raises) and [os.path.exists];
    [re.findall] with the script's number pattern, and [float]. *)
Variable open_read : string -> exn + string.
Variable path_exists : string -> bool.
Variable re_findall : string -> list string.
Variable float : string -> Q.

Definition read_file (filename : string) : py string :=
  match open_read filename with
  | inl e => raise e
  | inr content => ret content
  end.

Definition load_data (filename : string) : py matrix :=
  try_except
    (content <- read_file filename ;;
     let numbers := map float (re_findall content) in
     let num_cols := 6%nat in
     let num_rows := (List.length numbers / num_cols)%nat in
     let data_matrix :=
       reshape num_rows num_cols (firstn (num_rows * num_cols) numbers) in
     ret data_matrix)
    (fun e =>
       match exn_cls e with
       | FileNotFoundError =>
           emit (Printed ("Error: " ++ filename ++
                        " not found. Please ensure it is in the data/ folder.")%string)
           ;;; ret (np_zeros 10 6)
       | _ =>
           emit (Printed ("An error occurred loading data: " ++ exn_msg e)%string)
           ;;; ret (np_zeros 10 6)
       end).

Definition data_path : string :=
  if path_exists "data/AirDataSonntag.txt" then "data/AirDataSonntag.txt"
  else "AirDataSonntag.txt".

(** The module-level statements up to the column assignment: load the
    table, warn when it sums to zero. *)
Definition data : py matrix :=
  data <- load_data data_path ;;
  (if Qeq_bool (matrix_sum data) 0
   then emit (Printed "WARNING: Data loaded is empty. Check AirDataSonntag.txt file.")
   else ret tt) ;;;
  ret data.

Definition T_data (data : matrix) : list Q := column 0 data.
Definition h_data (data : matrix) : list Q := column 1 data.
Definition s_data (data : matrix) : list Q := column 5 data.

(** [ind = np.argsort(x, kind="mergesort"); x = x[ind]; y = np.take(y, ind)]:
    the points in the order of their abscissae, equal abscissae in the
    order they had. *)
Fixpoint insert_point (p : Q * Q) (points : list (Q * Q)) : list (Q * Q) :=
  match points with
  | [] => [p]
  | q :: rest =>
      if Qle_bool (fst p) (fst q) then p :: points
      else q :: insert_point p rest
  end.

Definition argsort_take (x y : list Q) : list (Q * Q) :=
  fold_right insert_point [] (combine x y).

(** [np.any(x[1:] == x[:-1])] *)
Fixpoint adjacent_equal (x : list Q) : bool :=
  match x with
  | a :: (b :: _) as rest => Qeq_bool a b || adjacent_equal rest
  | _ => false
  end.

(** What [interp1d] does once the abscissae are sorted and found without
    repeats: it builds the cubic spline through the points, or still
    refuses them (a table of fewer than four rows, for one). *)
Variable make_interp_spline : list Q -> list Q -> py (Q -> Q).

(** [interp1d(x, y, kind='cubic', fill_value="extrapolate")]: the arrays
    must have one length; the points are sorted by abscissa, and the spline
    construction refuses abscissae that repeat.  The texts of the two
    [ValueError]s are those of a recent scipy. *)
Definition interp1d (x y : list Q) : py (Q -> Q) :=
  if negb (List.length x =? List.length y)%nat then
    raise (PyExn ValueError
             "x and y arrays must be equal in length along interpolation axis.")
  else
    let points := argsort_take x y in
    let xx := map fst points in
    let yy := map snd points in
    if adjacent_equal xx then
      raise (PyExn ValueError "Expect x to not have duplicates")
    else make_interp_spline xx yy.

(** The module-level statements from the choice of the path to the two
    interpolants [h] and [s]; an exception raised here ends the run before
    any evaluation. *)
Definition interpolants : py ((Q -> Q) * (Q -> Q)) :=
  data <- data ;;
  h <- interp1d (T_data data) (h_data data) ;;
  s <- interp1d (T_data data) (s_data data) ;;
  ret (h, s).

End DataLoading.

(** ** The number pattern and [float] *)

From Stdlib Require Import Ascii Sorted Permutation SetoidList
  SetoidPermutation.

(** [re.findall(r"[-+]?\d*\.\d+|[-+]?\d+", content)] and [float] on its
    matches.  Texts are strings of characters below 256, where [\d] is
    [0-9].  The pattern needs no backtracking beyond what is written here:
    after the optional sign and the longest run of digits, the first
    alternative wants a dot and at least one digit; giving back digits or the
    sign cannot help it, and the second alternative then takes the same
    sign and digits. *)

Definition is_digit (c : ascii) : bool :=
  ((48 <=? nat_of_ascii c) && (nat_of_ascii c <=? 57))%nat.

Definition is_sign (c : ascii) : bool :=
  Ascii.eqb c "+" || Ascii.eqb c "-".

Definition is_dot (c : ascii) : bool := Ascii.eqb c ".".

Definition is_empty (s : string) : bool :=
  match s with
  | EmptyString => true
  | String _ _ => false
  end.

Fixpoint all_chars (p : ascii -> bool) (s : string) : bool :=
  match s with
  | EmptyString => true
  | String c s' => p c && all_chars p s'
  end.

Fixpoint keep (p : ascii -> bool) (s : string) : string :=
  match s with
  | EmptyString => EmptyString
  | String c s' => if p c then String c (keep p s') else keep p s'
  end.

(** [\d*], greedy: the longest run of digits and what follows it. *)
Fixpoint digits (s : string) : string * string :=
  match s with
  | EmptyString => (EmptyString, EmptyString)
  | String c s' =>
      if is_digit c then
        let (d, rest) := digits s' in (String c d, rest)
      else (EmptyString, s)
  end.

(** [[-+]?], greedy. *)
Definition sign_of (s : string) : string * string :=
  match s with
  | String c s' =>
      if is_sign c then (String c EmptyString, s') else (EmptyString, s)
  | EmptyString => (EmptyString, s)
  end.

(** A match of the pattern at the start of [s]: the matched text and the
    rest. *)
Definition match_number (s : string) : option (string * string) :=
  let (sign, s1) := sign_of s in
  let (ds, s2) := digits s1 in
  let second :=
    if is_empty ds then None else Some ((sign ++ ds)%string, s2) in
  match s2 with
  | String c s3 =>
      if is_dot c then
        let (fs, s4) := digits s3 in
        if is_empty fs then second
        else Some ((sign ++ ds ++ String c fs)%string, s4)
      else second
  | EmptyString => second
  end.

(** [findall]: matches from left to right, none overlapping; [skip] counts
    the characters of the last match still to be passed over. *)
Fixpoint findall_skip (skip : nat) (s : string) : list string :=
  match s with
  | EmptyString => []
  | String _ s' =>
      match skip with
      | S k => findall_skip k s'
      | O =>
          match match_number s with
          | Some (tok, _) => tok :: findall_skip (String.length tok - 1) s'
          | None => findall_skip 0 s'
          end
      end
  end.

Definition re_findall_numbers (content : string) : list string :=
  findall_skip 0 content.

(** The pattern as a test on a whole string ([re.fullmatch]). *)
Definition is_number_literal (s : string) : bool :=
  let (ds, r) := digits (snd (sign_of s)) in
  match r with
  | EmptyString => negb (is_empty ds)
  | String c fs => is_dot c && negb (is_empty fs) && all_chars is_digit fs
  end.

(** [float] on plain decimal literals, [[-+]?digits[.digits]] with a digit
    somewhere, as an exact rational.  [None] stands for every other string:
    there Python raises [ValueError] or reads a syntax (exponents, [inf],
    blanks, underscores) that the pattern never hands over. *)
Definition digit_value (c : ascii) : Z := Z.of_nat (nat_of_ascii c - 48).

Fixpoint digits_value (acc : Z) (s : string) : Z :=
  match s with
  | EmptyString => acc
  | String c s' => digits_value (10 * acc + digit_value c) s'
  end.

Definition decimal (ds fs : string) : Q :=
  inject_Z (digits_value 0 ds)
  + inject_Z (digits_value 0 fs) / inject_Z (10 ^ Z.of_nat (String.length fs)).

Definition float_literal (s : string) : option Q :=
  let (sign, body) := sign_of s in
  let (ds, r) := digits body in
  let value (fs : string) : Q :=
    if String.eqb sign "-" then - decimal ds fs else decimal ds fs in
  match r with
  | EmptyString => if is_empty ds then None else Some (value EmptyString)
  | String c fs =>
      if is_dot c && all_chars is_digit fs
         && negb (is_empty ds && is_empty fs)
      then Some (value fs) else None
  end.

(** [float] as [load_data] uses it, on the matches of the pattern. *)
Definition py_float (s : string) : Q :=
  match float_literal s with
  | Some q => q
  | None => 0
  end.

(** A table as text: cells, each a literal followed by a separator made
    of characters that are no digit, sign or dot; only the last separator
    may be empty. *)
Definition is_blank (c : ascii) : bool :=
  negb (is_digit c || is_sign c || is_dot c).

Fixpoint table_text (cells : list (string * string)) : string :=
  match cells with
  | [] => EmptyString
  | (lit, sep) :: rest => (lit ++ sep ++ table_text rest)%string
  end.

Fixpoint well_formed_table (cells : list (string * string)) : bool :=
  match cells with
  | [] => true
  | (lit, sep) :: rest =>
      is_number_literal lit && all_chars is_blank sep
      && (negb (is_empty sep) || match rest with [] => true | _ => false end)
      && well_formed_table rest
  end.

(** What may follow a run of digits, and what may follow a literal. *)
Definition starts_without_digit (s : string) : Prop :=
  match s with
  | EmptyString => True
  | String c _ => is_digit c = false
  end.

Definition starts_blank (s : string) : Prop :=
  match s with
  | EmptyString => True
  | String c _ => is_blank c = true
  end.

(** ** Sample collaborators, for evaluating the model on concrete inputs *)

Module Sample.

(** A root finder standing in for MINPACK: Newton steps with a
    forward-difference slope.  It reports status 1 at an exact root, 5 when
    the slope vanishes (no progress possible) and 2 when the budget of
    steps is used up. *)
Fixpoint newton (budget : nat) (f : Q -> Q) (x : Q) : hybr_result :=
  if Qeq_bool (f x) 0 then HybrResult x 1 "The solution converged."
  else
    match budget with
    | O =>
        HybrResult x 2 "The number of calls to function has reached maxfev."
    | S budget' =>
        let slope := f (x + 1) - f x in
        if Qeq_bool slope 0 then
          HybrResult x 5 "The iteration is not making good progress."
        else newton budget' f (Qred (x - f x / slope))
    end.

Definition hybrd : (Q -> Q) -> Q -> hybr_result := newton 20.

(** [numpy.log] and [r ** 0.3] at the ratios used below, as Python prints
    them (16 significant digits); other arguments are not used. *)
Definition np_log (x : Q) : Q :=
  if Qeq_bool x 1 then 0
  else if Qeq_bool x 2 then 0.6931471805599453
  else if Qeq_bool x 150 then 5.0106352940962555
  else 0.

Definition pow (x e : Q) : Q :=
  if Qeq_bool x 1 then 1
  else if Qeq_bool x 2 then 1.2311444133449163
  else if Qeq_bool x 150 then 4.496011130479918
  else 1.

(** Enthalpy with a constant specific heat of 1 kJ/kg-K. *)
Definition h_lin (T : Q) : Q := T.

(** A two-segment fit of the entropy of air: 6.845 at 298.15 K, 7.6 at
    600 K, 8.2 at 1200 K. *)
Definition s_air (T : Q) : Q :=
  if Qle_bool T 600 then 6.1 + T / 400 else 7.6 + (T - 600) / 1000.

(** The same fit below 600 K and no rise above: a table that stops early
    and is continued by its last value. *)
Definition s_capped (T : Q) : Q :=
  if Qle_bool T 600 then 6.1 + T / 400 else 7.6.

(** An increasing entropy with a knee at 1150 K: nearly flat below, steep
    above. *)
Definition s_knee (T : Q) : Q :=
  if Qle_bool T 1150 then T / 10000
  else 1150 / 10000 + (T - 1150) / 100.

(** A file system without the property table, and one whose table cannot
    be decoded. *)
Definition no_file (filename : string) : exn + string :=
  inl (PyExn FileNotFoundError "[Errno 2] No such file or directory").

Definition bad_file (filename : string) : exn + string :=
  inl (PyExn UnicodeDecodeError "invalid start byte").

(** A two-row text in the layout of the property table: a header, then
    six numbers per line. *)
Definition newline : string := String (ascii_of_nat 10) EmptyString.

Definition header : string := ("T h Pr u vr s" ++ newline)%string.

Definition cells : list (string * string) :=
  [("300", " "); ("300.47", " "); ("1.1146", " "); ("214.36", " ");
   ("179.49", " "); ("6.86926", newline);
   ("+1200", " "); ("1277.81", " "); ("191.17", " "); ("933.37", " ");
   ("4.1859", " "); ("8.34596", EmptyString)].

Definition table_file (filename : string) : exn + string :=
  inr (header ++ table_text cells)%string.

(** A file that holds a title and three numbers only. *)
Definition short_file (filename : string) : exn + string :=
  inr "Air, 1.5 to 2.5 bar, 3 columns".

(** A stand-in for the spline construction: the straight line through the
    first two points. *)
Definition make_interp_spline (x y : list Q) : py (Q -> Q) :=
  match combine x y with
  | (x0, y0) :: (x1, y1) :: _ =>
      ret (fun T => y0 + (T - x0) * ((y1 - y0) / (x1 - x0)))
  | _ => raise (PyExn ValueError "x and y arrays must have at least 2 entries")
  end.

(** A table whose two rows carry the same temperature. *)
Definition repeated_cells : list (string * string) :=
  [("300", " "); ("300.47", " "); ("1.1146", " "); ("214.36", " ");
   ("179.49", " "); ("6.86926", newline);
   ("300.0", " "); ("300.47", " "); ("1.1146", " "); ("214.36", " ");
   ("179.49", " "); ("6.86926", EmptyString)].

Definition repeated_file (filename : string) : exn + string :=
  inr (header ++ table_text repeated_cells)%string.


End Sample.

(** * The evaluators *)

Section Evaluators.

(** The property interpolants, [numpy.log], float [**] and MINPACK. *)
Variable h s : Q -> Q.
Variable np_log : Q -> Q.
Variable pow : Q -> Q -> Q.
Variable hybrd : (Q -> Q) -> Q -> hybr_result.

(** [fsolve(func, x0)[0]] with [full_output=0]: status 1 returns the
    solution, 2..5 warn and return the last iterate all the same, anything
    else is a [TypeError]. *)
Definition fsolve (func : Q -> Q) (x0 : Q) : py Q :=
  emit (Fsolve x0) ;;;
  let res := hybrd func x0 in
  let status := res_status res in
  let msg := res_message res in
  if (status =? 0)%Z then raise (PyExn TypeError msg)
  else if (status =? 1)%Z then ret (res_x res)
  else if gave_up status then
    emit (RuntimeWarning msg) ;;; ret (res_x res)
  else raise (PyExn TypeError msg).

(** The residuals handed to [fsolve]; the variables they capture are
    explicit arguments. *)
Definition s_diff_comp (s1 r : Q) (T : Q) : Q := s T - s1 - R * np_log r.

Definition s_diff_turb (s3 r : Q) (T : Q) : Q := s T - s3 + R * np_log r.

Definition h_diff (h4 : Q) (T : Q) : Q := h T - h4.

(** The MINPACK results behind the [fsolve] calls of the evaluators: the
    two isentropic solves of parts 1 to 3, and the three solves of part 4
    with their fixed seeds. *)
Definition brayton_res2 (r : Q) : hybr_result :=
  hybrd (s_diff_comp (s T1) r) (T1 * pow r 0.3).

Definition brayton_res4 (r : Q) : hybr_result :=
  hybrd (s_diff_turb (s T3) r) (T3 / pow r 0.3).

Definition comb_res2 (r : Q) : hybr_result :=
  hybrd (s_diff_comp (s T1) r) 350.

Definition comb_res4 (r : Q) : hybr_result :=
  hybrd (s_diff_turb (s T3) r) 1000.

Definition comb_res (r : Q) : hybr_result :=
  hybrd (h_diff (h T3 - eta_t * (h T3 - h (res_x (comb_res4 r))))) 800.

(** *** Part 1: thermal efficiency *)

Definition thermal_efficiency_locals (r : Q) : py Brayton.locals :=
  let s1 := s T1 in
  T2s <- fsolve (s_diff_comp s1 r) (T1 * pow r 0.3) ;;
  let h1 := h T1 in
  let h2s := h T2s in
  let h2 := h1 + (h2s - h1) / eta_c in
  let s3 := s T3 in
  T4s <- fsolve (s_diff_turb s3 r) (T3 / pow r 0.3) ;;
  let h3 := h T3 in
  let h4s := h T4s in
  let h4 := h3 - eta_t * (h3 - h4s) in
  let w_net := (h3 - h4) - (h2 - h1) in
  let q_in := h3 - h2 in
  ret (Brayton.Locals s1 T2s h1 h2s h2 s3 T4s h3 h4s h4 w_net q_in).

Definition thermal_efficiency (r : Q) : py Q :=
  l <- thermal_efficiency_locals r ;;
  ret (Brayton.w_net l / Brayton.q_in l).

(** *** Part 2: net work and its sweep *)

Definition net_work (r : Q) : py Q :=
  let s1 := s T1 in
  T2s <- fsolve (fun T => s T - s1 - R * np_log r) (T1 * pow r 0.3) ;;
  let h1 := h T1 in
  let h2s := h T2s in
  let h2 := h1 + (h2s - h1) / eta_c in
  let s3 := s T3 in
  T4s <- fsolve (fun T => s T - s3 + R * np_log r) (T3 / pow r 0.3) ;;
  let h3 := h T3 in
  let h4s := h T4s in
  let h4 := h3 - eta_t * (h3 - h4s) in
  ret ((h3 - h4) - (h2 - h1)).

(** The driver of part 2, for any sequence of ratios: the list of net
    works, its maximum and the ratio at [np.argmax]. *)
Record sweep_result : Type := SweepResult {
  w_net_values : list Q;
  w_net_max : Q;
  r_opt : Q
}.

Definition net_work_sweep (r_values : list Q) : py sweep_result :=
  w_net_values <- comprehension net_work r_values ;;
  w_net_max <- py_max w_net_values ;;
  i <- np_argmax w_net_values ;;
  r_opt <- index r_values i ;;
  ret (SweepResult w_net_values w_net_max r_opt).

(** *** Part 3: sensitivity to the isentropic efficiencies *)

Definition thermal_efficiency_sens_locals (r eta_c_val eta_t_val : Q)
  : py Brayton.locals :=
  let s1 := s T1 in
  T2s <- fsolve (fun T => s T - s1 - R * np_log r) (T1 * pow r 0.3) ;;
  let h1 := h T1 in
  let h2s := h T2s in
  let h2 := h1 + (h2s - h1) / eta_c_val in
  let s3 := s T3 in
  T4s <- fsolve (fun T => s T - s3 + R * np_log r) (T3 / pow r 0.3) ;;
  let h3 := h T3 in
  let h4s := h T4s in
  let h4 := h3 - eta_t_val * (h3 - h4s) in
  let w_net := (h3 - h4) - (h2 - h1) in
  let q_in := h3 - h2 in
  ret (Brayton.Locals s1 T2s h1 h2s h2 s3 T4s h3 h4s h4 w_net q_in).

Definition thermal_efficiency_sens (r eta_c_val eta_t_val : Q) : py Q :=
  l <- thermal_efficiency_sens_locals r eta_c_val eta_t_val ;;
  ret ((Brayton.w_net l / Brayton.q_in l) * 100).

(** *** Part 4: combined cycle *)

Definition calculate_efficiencies_comb_locals (r : Q) : py Comb.locals :=
  let s1 := s T1 in
  T2s <- fsolve (fun T => s T - s1 - R * np_log r) 350 ;;
  let h1 := h T1 in
  let h2s := h T2s in
  let h2 := h1 + (h2s - h1) / eta_c in
  let s3 := s T3 in
  T4s <- fsolve (fun T => s T - s3 + R * np_log r) 1000 ;;
  let h3 := h T3 in
  let h4s := h T4s in
  let h4 := h3 - eta_t * (h3 - h4s) in
  let w_net_brayton := (h3 - h4) - (h2 - h1) in
  let q_in_brayton := h3 - h2 in
  let eta_brayton := (w_net_brayton / q_in_brayton) * 100 in
  T4_real <- fsolve (fun T => h T - h4) 800 ;;
  if Qle_bool T4_limit T4_real then
    let h_stack := h T_stack in
    let q_to_rankine := max2 0 (h4 - h_stack) in
    let m_steam := q_to_rankine / q_in_rankine in
    let w_rankine := m_steam * (q_in_rankine * eta_rankine_1kg / 100) in
    let eta_combined := ((w_net_brayton + w_rankine) / q_in_brayton) * 100 in
    ret (Comb.Locals s1 T2s h1 h2s h2 s3 T4s h3 h4s h4
           w_net_brayton q_in_brayton eta_brayton T4_real
           (Some (Rankine.Locals h_stack q_to_rankine m_steam w_rankine))
           eta_combined)
  else
    let eta_combined := eta_brayton in
    ret (Comb.Locals s1 T2s h1 h2s h2 s3 T4s h3 h4s h4
           w_net_brayton q_in_brayton eta_brayton T4_real
           None eta_combined).

Definition calculate_efficiencies_comb (r : Q) : py (Q * Q * Q) :=
  l <- calculate_efficiencies_comb_locals r ;;
  ret (Comb.eta_brayton l, Comb.eta_combined l, Comb.T4_real l).

(** *** Part 3: the sensitivity loop *)

Definition r_fixed : Q := 10.

Definition isentropic_efficiencies : list Q := [0.86; 0.88; 0.90; 0.92; 0.94].

(** [for eta in isentropic_efficiencies: ... eta_th_list.append(eta_th)],
    for any ratio, list of efficiencies and list built so far. *)
Fixpoint sensitivity_loop (r : Q) (efficiencies : list Q)
  (eta_th_list : list Q) : py (list Q) :=
  match efficiencies with
  | [] => ret eta_th_list
  | eta :: rest =>
      eta_th <- thermal_efficiency_sens r eta eta ;;
      sensitivity_loop r rest (eta_th_list ++ [eta_th])
  end.

Definition eta_th_list : py (list Q) :=
  sensitivity_loop r_fixed isentropic_efficiencies [].

(** ** Properties of the evaluators *)

(** *** The monad and [fsolve] *)

Lemma bind_ret_l {A B : Type} (a : A) (k : A -> py B) : bind (ret a) k = k a.
Proof. unfold bind, ret. destruct (k a) as [t o]. reflexivity. Qed.

Lemma bind_assoc {A B C : Type} (m : py A) (k : A -> py B) (k' : B -> py C) :
  bind (bind m k) k' = bind m (fun a => bind (k a) k').
Proof.
  destruct m as [t [e | a]]; cbn; [reflexivity|].
  destruct (k a) as [t1 [e1 | b]]; cbn; [reflexivity|].
  destruct (k' b) as [t2 o2]. rewrite app_assoc. reflexivity.
Qed.

Lemma gave_up_returns (status : Z) :
  gave_up status = true -> returns status = true.
Proof.
  unfold gave_up, returns. rewrite !andb_true_iff, !Z.leb_le. lia.
Qed.

Lemma fsolve_returns_ok (func : Q -> Q) (x0 : Q) :
  returns (res_status (hybrd func x0)) = true ->
  fsolve func x0 =
    (Fsolve x0 :: warnings (hybrd func x0), inr (res_x (hybrd func x0))).
Proof.
  unfold fsolve, returns, warnings, gave_up. intros H.
  apply andb_true_iff in H as [H1 H2].
  apply Z.leb_le in H1. apply Z.leb_le in H2.
  destruct (Z.eqb_spec (res_status (hybrd func x0)) 0) as [E|E]; [lia|].
  destruct (Z.eqb_spec (res_status (hybrd func x0)) 1) as [E1|E1].
  - rewrite E1. reflexivity.
  - replace (2 <=? res_status (hybrd func x0))%Z with true
      by (symmetry; apply Z.leb_le; lia).
    replace (res_status (hybrd func x0) <=? 5)%Z with true
      by (symmetry; apply Z.leb_le; lia).
    reflexivity.
Qed.

Lemma fsolve_raises (func : Q -> Q) (x0 : Q) :
  returns (res_status (hybrd func x0)) = false ->
  fsolve func x0 =
    ([Fsolve x0], inl (PyExn TypeError (res_message (hybrd func x0)))).
Proof.
  unfold fsolve, returns, gave_up. intros H.
  apply andb_false_iff in H.
  destruct (Z.eqb_spec (res_status (hybrd func x0)) 0) as [E|E];
    [reflexivity|].
  destruct (Z.eqb_spec (res_status (hybrd func x0)) 1) as [E1|E1].
  - rewrite E1 in H. destruct H; discriminate.
  - destruct H as [H|H]; apply Z.leb_gt in H.
    + replace (2 <=? res_status (hybrd func x0))%Z with false
        by (symmetry; apply Z.leb_gt; lia).
      reflexivity.
    + replace (res_status (hybrd func x0) <=? 5)%Z with false
        by (symmetry; apply Z.leb_gt; lia).
      rewrite andb_false_r. reflexivity.
Qed.

(** The three textual copies of the Brayton evaluation are one term. *)
Lemma thermal_efficiency_locals_sens (r : Q) :
  thermal_efficiency_locals r = thermal_efficiency_sens_locals r eta_c eta_t.
Proof. reflexivity. Qed.

(** The frame of the Brayton evaluation once both solves have returned. *)
Lemma thermal_efficiency_sens_locals_frame (r eta_c_val eta_t_val : Q) :
  let res2 := hybrd (s_diff_comp (s T1) r) (T1 * pow r 0.3) in
  let res4 := hybrd (s_diff_turb (s T3) r) (T3 / pow r 0.3) in
  returns (res_status res2) = true ->
  returns (res_status res4) = true ->
  thermal_efficiency_sens_locals r eta_c_val eta_t_val =
    (Fsolve (T1 * pow r 0.3) :: warnings res2 ++
     Fsolve (T3 / pow r 0.3) :: warnings res4,
     let h1 := h T1 in
     let h2s := h (res_x res2) in
     let h2 := h1 + (h2s - h1) / eta_c_val in
     let h3 := h T3 in
     let h4s := h (res_x res4) in
     let h4 := h3 - eta_t_val * (h3 - h4s) in
     inr (Brayton.Locals (s T1) (res_x res2) h1 h2s h2
            (s T3) (res_x res4) h3 h4s h4
            ((h3 - h4) - (h2 - h1)) (h3 - h2))).
Proof.
  intros res2 res4 H2 H4. unfold thermal_efficiency_sens_locals.
  fold (s_diff_comp (s T1) r). fold (s_diff_turb (s T3) r).
  rewrite (fsolve_returns_ok _ _ H2). cbn [bind].
  rewrite (fsolve_returns_ok _ _ H4). cbn [bind ret].
  rewrite app_nil_r. reflexivity.
Qed.

(** *** Arithmetic of the efficiency figures *)

Lemma max2_nonneg (x : Q) : 0 <= max2 0 x.
Proof. unfold max2. destruct (Qlt_le_dec 0 x); lra. Qed.

Lemma max2_Qmax (a b : Q) : max2 a b == Qmax a b.
Proof.
  unfold max2. destruct (Qlt_le_dec a b) as [Hlt | Hle].
  - rewrite Q.max_r; [reflexivity | lra].
  - rewrite Q.max_l; [reflexivity | lra].
Qed.

Lemma percent_monotone (w wr q : Q) :
  0 < q -> 0 <= wr -> (w / q) * 100 <= ((w + wr) / q) * 100.
Proof.
  intros Hq Hwr. unfold Qdiv.
  pose proof (Qinv_lt_0_compat q Hq) as Hi.
  set (i := / q) in *. nra.
Qed.

Lemma percent_antitone (w wr q : Q) :
  q < 0 -> 0 < wr -> ((w + wr) / q) * 100 < (w / q) * 100.
Proof.
  intros Hq Hwr. unfold Qdiv.
  assert (Hi : 0 < / - q) by (apply Qinv_lt_0_compat; lra).
  assert (E : / q == - / - q) by (field; lra).
  rewrite E. set (i := / - q) in *. nra.
Qed.

Lemma heat_input_positive_iff (h1 h2s h3 eff : Q) :
  0 < eff ->
  (0 < h3 - (h1 + (h2s - h1) / eff) <-> h2s - h1 < eff * (h3 - h1)).
Proof.
  intros He.
  assert (E : (h2s - h1) / eff * eff == h2s - h1) by (field; lra).
  set (d := (h2s - h1) / eff) in *.
  split; intros H; nra.
Qed.

(** The frame of the combined evaluation once its three solves have
    returned. *)
Lemma calculate_efficiencies_comb_locals_frame (r : Q) :
  let res2 := hybrd (s_diff_comp (s T1) r) 350 in
  let res4 := hybrd (s_diff_turb (s T3) r) 1000 in
  let res := hybrd (h_diff (h T3 - eta_t * (h T3 - h (res_x res4)))) 800 in
  returns (res_status res2) = true ->
  returns (res_status res4) = true ->
  returns (res_status res) = true ->
  exists l,
    calculate_efficiencies_comb_locals r =
      (Fsolve 350 :: warnings res2 ++ Fsolve 1000 :: warnings res4 ++
       Fsolve 800 :: warnings res, inr l) /\
    (Comb.T2s l = res_x res2 /\ Comb.T4s l = res_x res4 /\
     Comb.T4_real l = res_x res) /\
    (Comb.h1 l = h T1 /\ Comb.h2s l = h (Comb.T2s l) /\
     Comb.h2 l = Comb.h1 l + (Comb.h2s l - Comb.h1 l) / eta_c /\
     Comb.h3 l = h T3 /\ Comb.h4s l = h (Comb.T4s l) /\
     Comb.h4 l = Comb.h3 l - eta_t * (Comb.h3 l - Comb.h4s l)) /\
    (Comb.w_net_brayton l =
       (Comb.h3 l - Comb.h4 l) - (Comb.h2 l - Comb.h1 l) /\
     Comb.q_in_brayton l = Comb.h3 l - Comb.h2 l /\
     Comb.eta_brayton l =
       (Comb.w_net_brayton l / Comb.q_in_brayton l) * 100) /\
    (if Qle_bool T4_limit (Comb.T4_real l) then
       exists k,
         Comb.rankine l = Some k /\
         Rankine.h_stack k = h T_stack /\
         Rankine.q_to_rankine k = max2 0 (Comb.h4 l - Rankine.h_stack k) /\
         Rankine.m_steam k = Rankine.q_to_rankine k / q_in_rankine /\
         Rankine.w_rankine k =
           Rankine.m_steam k * (q_in_rankine * eta_rankine_1kg / 100) /\
         Comb.eta_combined l =
           ((Comb.w_net_brayton l + Rankine.w_rankine k)
            / Comb.q_in_brayton l) * 100
     else
       Comb.rankine l = None /\ Comb.eta_combined l = Comb.eta_brayton l).
Proof.
  intros res2 res4 res H2 H4 H.
  unfold calculate_efficiencies_comb_locals.
  fold (s_diff_comp (s T1) r). fold (s_diff_turb (s T3) r).
  rewrite (fsolve_returns_ok _ _ H2). cbn [bind].
  rewrite (fsolve_returns_ok _ _ H4). cbn [bind].
  fold res2 res4.
  fold (h_diff (h T3 - eta_t * (h T3 - h (res_x res4)))).
  rewrite (fsolve_returns_ok _ _ H). cbn [bind]. fold res.
  destruct (Qle_bool T4_limit (res_x res)) eqn:Hge; cbn [ret].
  - eexists. split; [rewrite app_nil_r; reflexivity|].
    cbn. rewrite Hge.
    repeat split. eexists. repeat split.
  - eexists. split; [rewrite app_nil_r; reflexivity|].
    cbn. rewrite Hge. repeat split.
Qed.

(** *** What the evaluators compute *)

(** C1.  Once its two solves have returned, the Brayton evaluator has
    [T2s] from the residual whose zeros are the temperatures of entropy
    [s1 + R*ln(r)], [T4s] from the one whose zeros have entropy
    [s3 - R*ln(r)], and it returns [w_net / q_in] with
    [w_net = (h3 - h4) - (h2 - h1)] and [q_in = h3 - h2]. *)
Theorem brayton_evaluator_formulas (r : Q) :
  0 < r ->
  returns (res_status (brayton_res2 r)) = true ->
  returns (res_status (brayton_res4 r)) = true ->
  exists t l,
    thermal_efficiency_locals r = (t, inr l) /\
    thermal_efficiency r = (t, inr (Brayton.w_net l / Brayton.q_in l)) /\
    Brayton.s1 l = s T1 /\ Brayton.s3 l = s T3 /\
    Brayton.T2s l = res_x (brayton_res2 r) /\
    Brayton.T4s l = res_x (brayton_res4 r) /\
    (forall T, s_diff_comp (Brayton.s1 l) r T == 0 <->
               s T == Brayton.s1 l + R * np_log r) /\
    (forall T, s_diff_turb (Brayton.s3 l) r T == 0 <->
               s T == Brayton.s3 l - R * np_log r) /\
    Brayton.h1 l = h T1 /\ Brayton.h2s l = h (Brayton.T2s l) /\
    Brayton.h3 l = h T3 /\ Brayton.h4s l = h (Brayton.T4s l) /\
    Brayton.w_net l =
      (Brayton.h3 l - Brayton.h4 l) - (Brayton.h2 l - Brayton.h1 l) /\
    Brayton.q_in l = Brayton.h3 l - Brayton.h2 l.
Proof.
  intros _ H2 H4.
  pose proof (thermal_efficiency_sens_locals_frame r eta_c eta_t H2 H4) as E.
  cbv zeta in E. fold (brayton_res2 r) (brayton_res4 r) in E.
  eexists. eexists. split; [exact E|].
  split.
  { unfold thermal_efficiency. rewrite thermal_efficiency_locals_sens, E.
    cbn [bind ret]. rewrite app_nil_r. reflexivity. }
  cbn. repeat split; try reflexivity;
    unfold s_diff_comp, s_diff_turb; intros; lra.
Qed.

(** C2.  In the Brayton evaluation the actual compressor exit enthalpy is
    [h1 + (h2s - h1) / eta_c] and the actual turbine exit enthalpy is
    [h3 - eta_t * (h3 - h4s)], for every ratio and pair of efficiencies; the
    evaluator with the fixed efficiencies is the instance at 0.90. *)
Theorem component_state_model (r eta_c_val eta_t_val : Q) :
  0 < r ->
  returns (res_status (brayton_res2 r)) = true ->
  returns (res_status (brayton_res4 r)) = true ->
  (exists t l,
     thermal_efficiency_sens_locals r eta_c_val eta_t_val = (t, inr l) /\
     Brayton.h2 l =
       Brayton.h1 l + (Brayton.h2s l - Brayton.h1 l) / eta_c_val /\
     Brayton.h4 l =
       Brayton.h3 l - eta_t_val * (Brayton.h3 l - Brayton.h4s l)) /\
  (exists t l,
     thermal_efficiency_locals r = (t, inr l) /\
     Brayton.h2 l = Brayton.h1 l + (Brayton.h2s l - Brayton.h1 l) / 0.90 /\
     Brayton.h4 l = Brayton.h3 l - 0.90 * (Brayton.h3 l - Brayton.h4s l)).
Proof.
  intros _ H2 H4. split.
  - pose proof (thermal_efficiency_sens_locals_frame r eta_c_val eta_t_val
                  H2 H4) as E.
    cbv zeta in E. eexists. eexists. split; [exact E|].
    split; reflexivity.
  - pose proof (thermal_efficiency_sens_locals_frame r eta_c eta_t H2 H4)
      as E.
    cbv zeta in E. rewrite thermal_efficiency_locals_sens.
    eexists. eexists. split; [exact E|].
    split; reflexivity.
Qed.

(** C3, as the code has it.  [T4_real] comes from the residual whose zeros
    are the temperatures of enthalpy [h4]; both efficiencies are percentages:
    [eta_brayton = (w_net / q_in) * 100], and at or above [T4_limit]
    [eta_combined = ((w_net + w_rankine) / q_in) * 100] with [w_rankine]
    derived from [q_to_rankine = max(0, h4 - h(T_stack))], strictly below it
    [eta_combined = eta_brayton]. *)
Theorem combined_evaluator_percent (r : Q) :
  0 < r ->
  returns (res_status (comb_res2 r)) = true ->
  returns (res_status (comb_res4 r)) = true ->
  returns (res_status (comb_res r)) = true ->
  exists t l,
    calculate_efficiencies_comb_locals r = (t, inr l) /\
    calculate_efficiencies_comb r =
      (t, inr (Comb.eta_brayton l, Comb.eta_combined l, Comb.T4_real l)) /\
    Comb.T4_real l = res_x (hybrd (h_diff (Comb.h4 l)) 800) /\
    (forall T, h_diff (Comb.h4 l) T == 0 <-> h T == Comb.h4 l) /\
    Comb.eta_brayton l =
      (Comb.w_net_brayton l / Comb.q_in_brayton l) * 100 /\
    (T4_limit <= Comb.T4_real l ->
     exists k,
       Comb.rankine l = Some k /\
       Rankine.q_to_rankine k = max2 0 (Comb.h4 l - h T_stack) /\
       Rankine.q_to_rankine k == Qmax 0 (Comb.h4 l - h T_stack) /\
       Rankine.w_rankine k =
         Rankine.q_to_rankine k / q_in_rankine
         * (q_in_rankine * eta_rankine_1kg / 100) /\
       Comb.eta_combined l =
         ((Comb.w_net_brayton l + Rankine.w_rankine k)
          / Comb.q_in_brayton l) * 100) /\
    (Comb.T4_real l < T4_limit ->
     Comb.rankine l = None /\ Comb.eta_combined l = Comb.eta_brayton l).
Proof.
  intros _ H2 H4 H.
  destruct (calculate_efficiencies_comb_locals_frame r H2 H4 H)
    as (l & E & (E2 & E4 & ET) & (Eh1 & Eh2s & Eh2 & Eh3 & Eh4s & Eh4)
        & (Ew & Eq & Eb) & Hbranch).
  exists (Fsolve 350 :: warnings (comb_res2 r) ++
          Fsolve 1000 :: warnings (comb_res4 r) ++
          Fsolve 800 :: warnings (comb_res r)), l.
  split; [exact E|]. split.
  { unfold calculate_efficiencies_comb. rewrite E. cbn [bind ret].
    rewrite app_nil_r. reflexivity. }
  split.
  { rewrite ET, Eh4, Eh3, Eh4s, E4. reflexivity. }
  split.
  { intros T. unfold h_diff. split; intros; lra. }
  split; [exact Eb|].
  split.
  - intros Hge. apply Qle_bool_iff in Hge. rewrite Hge in Hbranch.
    destruct Hbranch as (k & Ek & Es & Eqr & Em & Ewr & Ec).
    exists k. rewrite Es in Eqr. repeat split; try assumption.
    + rewrite Eqr. apply max2_Qmax.
    + rewrite Ewr, Em. reflexivity.
  - intros Hlt.
    destruct (Qle_bool T4_limit (Comb.T4_real l)) eqn:Hge.
    + apply Qle_bool_iff in Hge. lra.
    + exact Hbranch.
Qed.

(** C4, as the code has it.  A solve that gives up (MINPACK status 2..5)
    is not an error for the evaluators: [fsolve] leaves a [RuntimeWarning]
    with the solver's message in the trace and hands back the last iterate;
    [thermal_efficiency] and [calculate_efficiencies_comb] go on with it and
    return their figures.  This holds for the two isentropic solves and for
    the inverse-enthalpy solve alike. *)
Theorem unconverged_solve_only_warns (r : Q) :
  0 < r ->
  returns (res_status (brayton_res2 r)) = true ->
  returns (res_status (brayton_res4 r)) = true ->
  returns (res_status (comb_res2 r)) = true ->
  returns (res_status (comb_res4 r)) = true ->
  returns (res_status (comb_res r)) = true ->
  (exists l,
     thermal_efficiency_locals r =
       (Fsolve (T1 * pow r 0.3) :: warnings (brayton_res2 r) ++
        Fsolve (T3 / pow r 0.3) :: warnings (brayton_res4 r), inr l) /\
     thermal_efficiency r =
       (Fsolve (T1 * pow r 0.3) :: warnings (brayton_res2 r) ++
        Fsolve (T3 / pow r 0.3) :: warnings (brayton_res4 r),
        inr (Brayton.w_net l / Brayton.q_in l)) /\
     Brayton.T2s l = res_x (brayton_res2 r) /\
     Brayton.T4s l = res_x (brayton_res4 r)) /\
  (exists l,
     calculate_efficiencies_comb_locals r =
       (Fsolve 350 :: warnings (comb_res2 r) ++
        Fsolve 1000 :: warnings (comb_res4 r) ++
        Fsolve 800 :: warnings (comb_res r), inr l) /\
     calculate_efficiencies_comb r =
       (Fsolve 350 :: warnings (comb_res2 r) ++
        Fsolve 1000 :: warnings (comb_res4 r) ++
        Fsolve 800 :: warnings (comb_res r),
        inr (Comb.eta_brayton l, Comb.eta_combined l, Comb.T4_real l)) /\
     Comb.T2s l = res_x (comb_res2 r) /\
     Comb.T4s l = res_x (comb_res4 r) /\
     Comb.T4_real l = res_x (comb_res r)) /\
  (forall res, gave_up (res_status res) = true ->
               warnings res = [RuntimeWarning (res_message res)]).
Proof.
  intros _ H2 H4 G2 G4 G. split; [|split].
  - pose proof (thermal_efficiency_sens_locals_frame r eta_c eta_t H2 H4)
      as E.
    cbv zeta in E. fold (brayton_res2 r) (brayton_res4 r) in E.
    eexists. split; [rewrite thermal_efficiency_locals_sens; exact E|].
    split.
    { unfold thermal_efficiency. rewrite thermal_efficiency_locals_sens, E.
      cbn [bind ret]. rewrite app_nil_r. reflexivity. }
    cbn. split; reflexivity.
  - destruct (calculate_efficiencies_comb_locals_frame r G2 G4 G)
      as (l & E & (E2 & E4 & ET) & _).
    exists l. split; [exact E|]. split.
    { unfold calculate_efficiencies_comb. rewrite E. cbn [bind ret].
      rewrite app_nil_r. reflexivity. }
    auto.
  - intros res Hres. unfold warnings. rewrite Hres. reflexivity.
Qed.

(** C5, as the code has it.  Nothing is validated: for every ratio and every
    pair of efficiencies the first thing the evaluators do is enter the
    compressor-side solve, and the only exception they can end with is the
    [TypeError] of [fsolve]. *)
Theorem no_parameter_validation (r eta_c_val eta_t_val : Q) :
  0 < r ->
  (exists t o,
     thermal_efficiency_sens r eta_c_val eta_t_val =
       (Fsolve (T1 * pow r 0.3) :: t, o) /\
     forall e, o = inl e -> exn_cls e = TypeError) /\
  (exists t o,
     thermal_efficiency r = (Fsolve (T1 * pow r 0.3) :: t, o) /\
     forall e, o = inl e -> exn_cls e = TypeError).
Proof.
  intros _.
  assert (G : forall ec et, exists t o,
             thermal_efficiency_sens_locals r ec et =
               (Fsolve (T1 * pow r 0.3) :: t, o) /\
             forall e, o = inl e -> exn_cls e = TypeError).
  { intros ec et. unfold thermal_efficiency_sens_locals.
    fold (s_diff_comp (s T1) r). fold (s_diff_turb (s T3) r).
    destruct (returns (res_status
                (hybrd (s_diff_comp (s T1) r) (T1 * pow r 0.3)))) eqn:H2.
    - rewrite (fsolve_returns_ok _ _ H2). cbn [bind].
      destruct (returns (res_status
                  (hybrd (s_diff_turb (s T3) r) (T3 / pow r 0.3)))) eqn:H4.
      + rewrite (fsolve_returns_ok _ _ H4). cbn [bind ret].
        eexists. eexists. split; [reflexivity|]. intros e; discriminate.
      + rewrite (fsolve_raises _ _ H4). cbn [bind].
        eexists. eexists. split; [reflexivity|].
        intros e [= <-]. reflexivity.
    - rewrite (fsolve_raises _ _ H2). cbn [bind].
      eexists. eexists. split; [reflexivity|].
      intros e [= <-]. reflexivity. }
  split.
  - destruct (G eta_c_val eta_t_val) as (t & o & E & Ho).
    unfold thermal_efficiency_sens. rewrite E.
    destruct o as [e | l]; cbn.
    + eexists. eexists. split; [reflexivity|]. intros e' [= <-]. auto.
    + eexists. eexists. split; [reflexivity|]. intros e'; discriminate.
  - destruct (G eta_c eta_t) as (t & o & E & Ho).
    unfold thermal_efficiency. rewrite thermal_efficiency_locals_sens, E.
    destruct o as [e | l]; cbn.
    + eexists. eexists. split; [reflexivity|]. intros e' [= <-]. auto.
    + eexists. eexists. split; [reflexivity|]. intros e'; discriminate.
Qed.

(** C6, as the code has it.  The heat input [q_in = h3 - h2] is positive
    exactly when [h2s - h1 < eta_c * (h3 - h1)]; the evaluator does not look
    at its sign and returns [w_net / q_in] in either case. *)
Theorem heat_input_unchecked (r eta_c_val eta_t_val : Q) :
  0 < r -> 0 < eta_c_val ->
  returns (res_status (brayton_res2 r)) = true ->
  returns (res_status (brayton_res4 r)) = true ->
  (exists t l,
     thermal_efficiency_sens_locals r eta_c_val eta_t_val = (t, inr l) /\
     thermal_efficiency_sens r eta_c_val eta_t_val =
       (t, inr ((Brayton.w_net l / Brayton.q_in l) * 100)) /\
     (0 < Brayton.q_in l <->
      Brayton.h2s l - Brayton.h1 l <
        eta_c_val * (Brayton.h3 l - Brayton.h1 l))) /\
  (exists t l,
     thermal_efficiency_locals r = (t, inr l) /\
     thermal_efficiency r = (t, inr (Brayton.w_net l / Brayton.q_in l)) /\
     (0 < Brayton.q_in l <->
      Brayton.h2s l - Brayton.h1 l < 0.90 * (Brayton.h3 l - Brayton.h1 l))).
Proof.
  intros _ Hc H2 H4. split.
  - pose proof (thermal_efficiency_sens_locals_frame r eta_c_val eta_t_val
                  H2 H4) as E.
    cbv zeta in E. eexists. eexists. split; [exact E|]. split.
    + unfold thermal_efficiency_sens. rewrite E. cbn [bind ret].
      rewrite app_nil_r. reflexivity.
    + cbn. apply heat_input_positive_iff. exact Hc.
  - pose proof (thermal_efficiency_sens_locals_frame r eta_c eta_t H2 H4)
      as E.
    cbv zeta in E. rewrite thermal_efficiency_locals_sens.
    eexists. eexists. split; [exact E|]. split.
    + unfold thermal_efficiency. rewrite thermal_efficiency_locals_sens, E.
      cbn [bind ret]. rewrite app_nil_r. reflexivity.
    + cbn. apply heat_input_positive_iff. reflexivity.
Qed.

(** C8, as the code has it.  Strictly below [T4_limit] the combined
    efficiency is the Brayton efficiency.  The combined efficiency is at
    least the Brayton efficiency whenever the heat input is positive; with a
    negative heat input and heat left for the bottoming cycle it is strictly
    smaller. *)
Theorem bottoming_cycle_gain (r : Q) :
  0 < r ->
  returns (res_status (comb_res2 r)) = true ->
  returns (res_status (comb_res4 r)) = true ->
  returns (res_status (comb_res r)) = true ->
  exists t l,
    calculate_efficiencies_comb_locals r = (t, inr l) /\
    (Comb.T4_real l < T4_limit ->
     Comb.eta_combined l = Comb.eta_brayton l) /\
    (0 < Comb.q_in_brayton l ->
     Comb.eta_brayton l <= Comb.eta_combined l) /\
    (T4_limit <= Comb.T4_real l ->
     Comb.q_in_brayton l < 0 ->
     h T_stack < Comb.h4 l ->
     Comb.eta_combined l < Comb.eta_brayton l).
Proof.
  intros _ H2 H4 H.
  destruct (calculate_efficiencies_comb_locals_frame r H2 H4 H)
    as (l & E & _ & _ & (Ew & Eq & Eb) & Hbranch).
  eexists. exists l. split; [exact E|].
  destruct (Qle_bool T4_limit (Comb.T4_real l)) eqn:Hge.
  - apply Qle_bool_iff in Hge.
    destruct Hbranch as (k & Ek & Es & Eqr & Em & Ewr & Ec).
    assert (Hq : 0 <= Rankine.q_to_rankine k)
      by (rewrite Eqr; apply max2_nonneg).
    assert (Hw : Rankine.w_rankine k == Rankine.q_to_rankine k * 0.3653).
    { rewrite Ewr, Em. unfold q_in_rankine, eta_rankine_1kg. field. }
    split; [intros; lra|]. split.
    + intros Hpos. rewrite Eb, Ec.
      apply percent_monotone; [exact Hpos | lra].
    + intros _ Hneg Hheat. rewrite Eb, Ec.
      assert (Hqr : Rankine.q_to_rankine k == Comb.h4 l - h T_stack).
      { rewrite Eqr, Es. unfold max2.
        destruct (Qlt_le_dec 0 (Comb.h4 l - h T_stack)); lra. }
      apply percent_antitone; [exact Hneg | lra].
  - destruct Hbranch as [_ Ec]. split; [intros _; exact Ec|]. split.
    + intros _. rewrite Ec. lra.
    + intros Hge'. apply Qle_bool_iff in Hge'. congruence.
Qed.

(** C9.  The three copies of the Brayton evaluation agree, effects and
    exceptions included: [thermal_efficiency_sens(r, 0.90, 0.90)] is
    [thermal_efficiency(r) * 100], and [net_work(r)] is the [w_net] of
    [thermal_efficiency(r)]. *)
Theorem brayton_copies_agree (r : Q) :
  thermal_efficiency_sens r 0.90 0.90 =
    (eta <- thermal_efficiency r ;; ret (eta * 100)) /\
  net_work r =
    (l <- thermal_efficiency_locals r ;; ret (Brayton.w_net l)).
Proof.
  split.
  - unfold thermal_efficiency_sens, thermal_efficiency.
    rewrite bind_assoc. rewrite thermal_efficiency_locals_sens.
    change eta_c with 0.90. change eta_t with 0.90.
    destruct (thermal_efficiency_sens_locals r 0.90 0.90) as [t [e | l]];
      [reflexivity|].
    cbn. reflexivity.
  - unfold net_work, thermal_efficiency_locals.
    fold (s_diff_comp (s T1) r). fold (s_diff_turb (s T3) r).
    rewrite !bind_assoc.
    destruct (fsolve (s_diff_comp (s T1) r) (T1 * pow r 0.3)) as [t [e | x2]];
      [reflexivity|].
    cbn [bind].
    rewrite !bind_assoc.
    destruct (fsolve (s_diff_turb (s T3) r) (T3 / pow r 0.3)) as [t4 [e | x4]];
      [reflexivity|].
    cbn. reflexivity.
Qed.

(** *** The sweep *)

Lemma scan_spec (rest pre : list Q) (best : Q) (best_i : nat) :
  nth_error pre best_i = Some best ->
  (forall j w, nth_error pre j = Some w ->
               w <= best /\ ((j < best_i)%nat -> w < best)) ->
  nth_error (pre ++ rest) (argmax_from best best_i (List.length pre) rest)
    = Some (max_from best rest) /\
  (forall j w, nth_error (pre ++ rest) j = Some w ->
     w <= max_from best rest /\
     ((j < argmax_from best best_i (List.length pre) rest)%nat ->
      w < max_from best rest)).
Proof.
  revert pre best best_i.
  induction rest as [| x rest IH]; intros pre best best_i Hbest Hpre.
  - cbn [argmax_from max_from]. rewrite app_nil_r. auto.
  - cbn [argmax_from max_from].
    assert (Hlen : List.length (pre ++ [x]) = S (List.length pre))
      by (rewrite length_app; cbn; lia).
    assert (Hbi : (best_i < List.length pre)%nat)
      by (apply nth_error_Some; rewrite Hbest; discriminate).
    replace (pre ++ x :: rest) with ((pre ++ [x]) ++ rest)
      by (rewrite <- app_assoc; reflexivity).
    rewrite <- Hlen.
    destruct (Qlt_le_dec best x) as [Hlt | Hle]; apply IH.
    + rewrite nth_error_app2 by lia. rewrite Nat.sub_diag. reflexivity.
    + intros j w Hj.
      destruct (Nat.lt_ge_cases j (List.length pre)) as [Hin | Hout].
      * rewrite nth_error_app1 in Hj by exact Hin.
        destruct (Hpre j w Hj) as [Hw _]. split; intros; lra.
      * rewrite nth_error_app2 in Hj by exact Hout.
        destruct (j - List.length pre)%nat as [| n] eqn:Hd; cbn in Hj.
        -- injection Hj as <-. split; [lra | lia].
        -- destruct n; discriminate.
    + rewrite nth_error_app1 by exact Hbi. exact Hbest.
    + intros j w Hj.
      destruct (Nat.lt_ge_cases j (List.length pre)) as [Hin | Hout].
      * rewrite nth_error_app1 in Hj by exact Hin. apply Hpre. exact Hj.
      * rewrite nth_error_app2 in Hj by exact Hout.
        destruct (j - List.length pre)%nat as [| n] eqn:Hd; cbn in Hj.
        -- injection Hj as <-. split; [exact Hle | lia].
        -- destruct n; discriminate.
Qed.

(** [max] and [np.argmax] on a non-empty list: the index points at the
    maximum, nothing is greater, and everything before it is smaller. *)
Lemma max_argmax_spec (x : Q) (rest : list Q) :
  let m := max_from x rest in
  let a := argmax_from x 0 1 rest in
  nth_error (x :: rest) a = Some m /\
  (forall j w, nth_error (x :: rest) j = Some w ->
               w <= m /\ ((j < a)%nat -> w < m)).
Proof.
  apply (scan_spec rest [x] x 0).
  - reflexivity.
  - intros [| j] w Hj; cbn in Hj.
    + injection Hj as <-. split; [lra | lia].
    + destruct j; discriminate.
Qed.

Lemma comprehension_spec {A B : Type} (f : A -> py B) (xs : list A) :
  (forall x, In x xs -> exists t y, f x = (t, inr y)) ->
  exists t ys,
    comprehension f xs = (t, inr ys) /\
    List.length ys = List.length xs /\
    (forall j x, nth_error xs j = Some x ->
       exists t' y, f x = (t', inr y) /\ nth_error ys j = Some y).
Proof.
  induction xs as [| x xs IH]; intros Hall.
  - exists [], []. cbn. repeat split. intros [| j] x Hj; discriminate.
  - destruct (Hall x (or_introl eq_refl)) as (t & y & Ex).
    destruct IH as (t' & ys & Exs & Hlen & Hnth).
    { intros x' Hx'. apply Hall. right. exact Hx'. }
    exists (t ++ t'), (y :: ys). cbn [comprehension].
    rewrite Ex. cbn [bind]. rewrite Exs. cbn [bind ret].
    rewrite !app_nil_r. split; [reflexivity|].
    split; [cbn; lia|].
    intros [| j] x' Hj; cbn in Hj.
    + injection Hj as <-. exists t, y. auto.
    + apply Hnth. exact Hj.
Qed.

Lemma net_work_returns (r : Q) :
  let res2 := hybrd (s_diff_comp (s T1) r) (T1 * pow r 0.3) in
  let res4 := hybrd (s_diff_turb (s T3) r) (T3 / pow r 0.3) in
  returns (res_status res2) = true ->
  returns (res_status res4) = true ->
  exists t w, net_work r = (t, inr w).
Proof.
  intros res2 res4 H2 H4. unfold net_work.
  fold (s_diff_comp (s T1) r). fold (s_diff_turb (s T3) r).
  rewrite (fsolve_returns_ok _ _ H2). cbn [bind].
  rewrite (fsolve_returns_ok _ _ H4). cbn [bind ret].
  eexists. eexists. reflexivity.
Qed.

(** C7.  For a non-empty sequence of ratios whose evaluations return, the
    sampled sequence holds the net work of every ratio, one for one and in
    the order of the ratios; the sweep reports the maximum of that sequence,
    found by a linear scan, and the ratio sampled there; among equal maxima
    it is the first. *)
Theorem sweep_optimum (r_values : list Q) :
  r_values <> [] ->
  (forall r, In r r_values ->
     0 < r /\
     returns (res_status (brayton_res2 r)) = true /\
     returns (res_status (brayton_res4 r)) = true) ->
  exists t ws i w_max r_at,
    comprehension net_work r_values = (t, inr ws) /\
    List.length ws = List.length r_values /\
    (forall j r, nth_error r_values j = Some r ->
       exists t' w, net_work r = (t', inr w) /\ nth_error ws j = Some w) /\
    net_work_sweep r_values = (t, inr (SweepResult ws w_max r_at)) /\
    nth_error ws i = Some w_max /\
    nth_error r_values i = Some r_at /\
    (exists t', net_work r_at = (t', inr w_max)) /\
    (forall j w, nth_error ws j = Some w -> w <= w_max) /\
    (forall j w, (j < i)%nat -> nth_error ws j = Some w -> w < w_max).
Proof.
  intros Hne Hall.
  destruct (comprehension_spec net_work r_values) as (t & ws & E & Hlen & Hnth).
  { intros r Hr. destruct (Hall r Hr) as (_ & H2 & H4).
    apply net_work_returns; assumption. }
  destruct ws as [| w0 ws'].
  { destruct r_values; [congruence | discriminate]. }
  destruct (max_argmax_spec w0 ws') as [Hat Hmax].
  set (m := max_from w0 ws') in *.
  set (a := argmax_from w0 0 1 ws') in *.
  assert (Ha : (a < List.length r_values)%nat).
  { rewrite <- Hlen. apply nth_error_Some. rewrite Hat. discriminate. }
  destruct (nth_error r_values a) as [r_at |] eqn:Er;
    [| apply nth_error_None in Er; lia].
  exists t, (w0 :: ws'), a, m, r_at.
  split; [exact E|]. split; [exact Hlen|]. split; [exact Hnth|]. split.
  { unfold net_work_sweep. rewrite E. cbn [bind py_max np_argmax ret].
    fold m a. unfold index. rewrite Er. cbn. rewrite !app_nil_r.
    reflexivity. }
  split; [exact Hat|]. split; [exact Er|]. split.
  { destruct (Hnth a r_at Er) as (t' & y & Ey & Hy).
    exists t'. rewrite Ey. congruence. }
  split.
  - intros j w Hj. apply (Hmax j w Hj).
  - intros j w Hlt Hj. apply (Hmax j w Hj). exact Hlt.
Qed.
(** *** Further properties of the Brayton evaluation *)

(** The three ways a Brayton evaluation can end. *)
Lemma thermal_efficiency_sens_locals_cases (r eta_c_val eta_t_val : Q) :
  (returns (res_status (brayton_res2 r)) = true /\
   returns (res_status (brayton_res4 r)) = true /\
   exists l,
     thermal_efficiency_sens_locals r eta_c_val eta_t_val =
       (Fsolve (T1 * pow r 0.3) :: warnings (brayton_res2 r) ++
        Fsolve (T3 / pow r 0.3) :: warnings (brayton_res4 r), inr l) /\
     Brayton.T2s l = res_x (brayton_res2 r) /\
     Brayton.T4s l = res_x (brayton_res4 r) /\
     Brayton.h2s l = h (res_x (brayton_res2 r)) /\
     Brayton.h4s l = h (res_x (brayton_res4 r))) \/
  (returns (res_status (brayton_res2 r)) = true /\
   returns (res_status (brayton_res4 r)) = false /\
   thermal_efficiency_sens_locals r eta_c_val eta_t_val =
     (Fsolve (T1 * pow r 0.3) :: warnings (brayton_res2 r) ++
      [Fsolve (T3 / pow r 0.3)],
      inl (PyExn TypeError (res_message (brayton_res4 r))))) \/
  (returns (res_status (brayton_res2 r)) = false /\
   thermal_efficiency_sens_locals r eta_c_val eta_t_val =
     ([Fsolve (T1 * pow r 0.3)],
      inl (PyExn TypeError (res_message (brayton_res2 r))))).
Proof.
  destruct (returns (res_status (brayton_res2 r))) eqn:H2.
  - destruct (returns (res_status (brayton_res4 r))) eqn:H4.
    + left. split; [reflexivity|]. split; [reflexivity|].
      pose proof (thermal_efficiency_sens_locals_frame
                    r eta_c_val eta_t_val H2 H4) as E.
      cbv zeta in E. eexists. split; [exact E|]. cbn. auto.
    + right. left. split; [reflexivity|]. split; [reflexivity|].
      unfold thermal_efficiency_sens_locals.
      fold (s_diff_comp (s T1) r). fold (s_diff_turb (s T3) r).
      rewrite (fsolve_returns_ok _ _ H2). cbn [bind].
      rewrite (fsolve_raises _ _ H4). cbn [bind]. reflexivity.
  - right. right. split; [reflexivity|].
    unfold thermal_efficiency_sens_locals.
    fold (s_diff_comp (s T1) r). fold (s_diff_turb (s T3) r).
    rewrite (fsolve_raises _ _ H2). cbn [bind]. reflexivity.
Qed.

(** The value of the sensitivity evaluator once both solves have returned,
    in terms of the isentropic works. *)
Lemma thermal_efficiency_sens_value (r eta_c_val eta_t_val : Q) :
  returns (res_status (brayton_res2 r)) = true ->
  returns (res_status (brayton_res4 r)) = true ->
  thermal_efficiency_sens r eta_c_val eta_t_val =
    (Fsolve (T1 * pow r 0.3) :: warnings (brayton_res2 r) ++
     Fsolve (T3 / pow r 0.3) :: warnings (brayton_res4 r),
     inr (((h T3 - (h T3 - eta_t_val * (h T3 - h (res_x (brayton_res4 r)))))
           - (h T1 + (h (res_x (brayton_res2 r)) - h T1) / eta_c_val - h T1))
          / (h T3 - (h T1 + (h (res_x (brayton_res2 r)) - h T1) / eta_c_val))
          * 100)).
Proof.
  intros H2 H4.
  pose proof (thermal_efficiency_sens_locals_frame r eta_c_val eta_t_val
                H2 H4) as E.
  cbv zeta in E. unfold thermal_efficiency_sens. rewrite E.
  cbn [bind ret]. rewrite app_nil_r. reflexivity.
Qed.

Lemma percent_below_100 (w q : Q) :
  0 < q -> (w / q * 100 < 100 <-> w < q).
Proof.
  intros Hq.
  assert (E : w / q * q == w) by (field; lra).
  remember (w / q) as d eqn:Ed. clear Ed.
  split; intros H; nra.
Qed.

Lemma efficiency_below_100 (h1 h2 h3 h4 : Q) :
  0 < h3 - h2 ->
  ((h3 - h4 - (h2 - h1)) / (h3 - h2) * 100 < 100 <-> h1 < h4).
Proof.
  intros Hq. rewrite (percent_below_100 _ _ Hq). split; intros H; lra.
Qed.

(** X8.  Energy balance.  The net work is the heat input less the heat rejected
    between turbine exit and compressor inlet, [h4 - h1]; with a positive
    heat input the efficiency is below 100 per cent exactly when the exhaust
    is hotter than the inlet. *)
Theorem energy_balance (r eta_c_val eta_t_val : Q) :
  0 < r ->
  returns (res_status (brayton_res2 r)) = true ->
  returns (res_status (brayton_res4 r)) = true ->
  exists t l v,
    thermal_efficiency_sens_locals r eta_c_val eta_t_val = (t, inr l) /\
    thermal_efficiency_sens r eta_c_val eta_t_val = (t, inr v) /\
    Brayton.w_net l == Brayton.q_in l - (Brayton.h4 l - Brayton.h1 l) /\
    (0 < Brayton.q_in l -> (v < 100 <-> Brayton.h1 l < Brayton.h4 l)).
Proof.
  intros _ H2 H4.
  pose proof (thermal_efficiency_sens_locals_frame r eta_c_val eta_t_val
                H2 H4) as E.
  cbv zeta in E. eexists. eexists. eexists. split; [exact E|]. split.
  { unfold thermal_efficiency_sens. rewrite E. cbn [bind ret].
    rewrite app_nil_r. reflexivity. }
  cbn [Brayton.w_net Brayton.q_in Brayton.h4 Brayton.h1].
  split; [ring|].
  intros Hq. apply efficiency_below_100. exact Hq.
Qed.

Lemma compressor_work_bound (h1 h2s ec : Q) :
  0 < ec -> ec <= 1 -> h1 <= h2s ->
  h2s - h1 <= h1 + (h2s - h1) / ec - h1.
Proof.
  intros Hc0 Hc1 Hb.
  assert (E : (h2s - h1) / ec * ec == h2s - h1) by (field; lra).
  remember ((h2s - h1) / ec) as d eqn:Ed. clear Ed. nra.
Qed.

Lemma turbine_work_bound (h3 h4s et : Q) :
  0 < et -> et <= 1 -> h4s <= h3 ->
  h3 - (h3 - et * (h3 - h4s)) <= h3 - h4s.
Proof. intros Ht0 Ht1 Ha. nra. Qed.

Lemma net_work_bound (h1 h2s h3 h4s ec et : Q) :
  0 < ec -> ec <= 1 -> 0 < et -> et <= 1 ->
  h1 <= h2s -> h4s <= h3 ->
  h3 - (h3 - et * (h3 - h4s)) - (h1 + (h2s - h1) / ec - h1)
    <= h3 - h4s - (h2s - h1).
Proof.
  intros Hc0 Hc1 Ht0 Ht1 Hb Ha.
  pose proof (compressor_work_bound h1 h2s ec Hc0 Hc1 Hb) as Hc.
  pose proof (turbine_work_bound h3 h4s et Ht0 Ht1 Ha) as Ht.
  remember ((h2s - h1) / ec) as d eqn:Ed. clear Ed. lra.
Qed.

(** X9.  Irreversibility costs work.  With efficiencies in (0, 1], a compressor
    that raises the enthalpy takes at least the isentropic work, a turbine
    that lowers it gives at most the isentropic work, and the net work is at
    most that of the ideal cycle. *)
Theorem irreversibility_costs_work (r eta_c_val eta_t_val : Q) :
  0 < r ->
  0 < eta_c_val /\ eta_c_val <= 1 ->
  0 < eta_t_val /\ eta_t_val <= 1 ->
  returns (res_status (brayton_res2 r)) = true ->
  returns (res_status (brayton_res4 r)) = true ->
  exists t l,
    thermal_efficiency_sens_locals r eta_c_val eta_t_val = (t, inr l) /\
    (Brayton.h1 l <= Brayton.h2s l ->
     Brayton.h2s l - Brayton.h1 l <= Brayton.h2 l - Brayton.h1 l) /\
    (Brayton.h4s l <= Brayton.h3 l ->
     Brayton.h3 l - Brayton.h4 l <= Brayton.h3 l - Brayton.h4s l) /\
    (Brayton.h1 l <= Brayton.h2s l ->
     Brayton.h4s l <= Brayton.h3 l ->
     Brayton.w_net l <=
       (Brayton.h3 l - Brayton.h4s l) - (Brayton.h2s l - Brayton.h1 l)).
Proof.
  intros _ [Hc0 Hc1] [Ht0 Ht1] H2 H4.
  pose proof (thermal_efficiency_sens_locals_frame r eta_c_val eta_t_val
                H2 H4) as E.
  cbv zeta in E. eexists. eexists. split; [exact E|].
  cbn [Brayton.w_net Brayton.q_in Brayton.h4 Brayton.h1 Brayton.h2
       Brayton.h2s Brayton.h3 Brayton.h4s].
  clear E. split; [| split].
  - intros Hb. apply compressor_work_bound; assumption.
  - intros Ha. apply turbine_work_bound; assumption.
  - intros Hb Ha. apply net_work_bound; assumption.
Qed.

(** X10.  With both efficiencies equal to 1 the evaluation is the ideal cycle:
    the actual states are the isentropic ones. *)
Theorem unit_efficiency_is_isentropic (r : Q) :
  0 < r ->
  returns (res_status (brayton_res2 r)) = true ->
  returns (res_status (brayton_res4 r)) = true ->
  exists t l v,
    thermal_efficiency_sens_locals r 1 1 = (t, inr l) /\
    thermal_efficiency_sens r 1 1 = (t, inr v) /\
    Brayton.h2 l == Brayton.h2s l /\
    Brayton.h4 l == Brayton.h4s l /\
    Brayton.w_net l ==
      (Brayton.h3 l - Brayton.h4s l) - (Brayton.h2s l - Brayton.h1 l) /\
    v == ((Brayton.h3 l - Brayton.h4s l) - (Brayton.h2s l - Brayton.h1 l))
         / (Brayton.h3 l - Brayton.h2s l) * 100.
Proof.
  intros _ H2 H4.
  pose proof (thermal_efficiency_sens_locals_frame r 1 1 H2 H4) as E.
  cbv zeta in E. eexists. eexists. eexists. split; [exact E|]. split.
  { unfold thermal_efficiency_sens. rewrite E. cbn [bind ret].
    rewrite app_nil_r. reflexivity. }
  cbn [Brayton.w_net Brayton.q_in Brayton.h4 Brayton.h1 Brayton.h2
       Brayton.h2s Brayton.h3 Brayton.h4s].
  assert (E2 : h T1 + (h (res_x (brayton_res2 r)) - h T1) / 1
               == h (res_x (brayton_res2 r))) by field.
  assert (E4 : h T3 - 1 * (h T3 - h (res_x (brayton_res4 r)))
               == h (res_x (brayton_res4 r))) by ring.
  split; [exact E2|]. split; [exact E4|].
  split; [rewrite E2, E4; reflexivity|].
  rewrite E2, E4. reflexivity.
Qed.

(** X11.  The solves do not depend on the efficiencies: two sensitivity
    evaluations at the same ratio leave the same trace, fail alike, and
    share their isentropic states. *)
Theorem solves_ignore_efficiencies (r a b c d : Q) :
  fst (thermal_efficiency_sens r a b) = fst (thermal_efficiency_sens r c d) /\
  (forall e, snd (thermal_efficiency_sens r a b) = inl e <->
             snd (thermal_efficiency_sens r c d) = inl e) /\
  (forall t t' l l',
     thermal_efficiency_sens_locals r a b = (t, inr l) ->
     thermal_efficiency_sens_locals r c d = (t', inr l') ->
     Brayton.T2s l = Brayton.T2s l' /\ Brayton.T4s l = Brayton.T4s l' /\
     Brayton.h2s l = Brayton.h2s l' /\ Brayton.h4s l = Brayton.h4s l').
Proof.
  unfold thermal_efficiency_sens.
  destruct (thermal_efficiency_sens_locals_cases r a b)
    as [(H2 & H4 & l & E & E2 & E4 & Eh2 & Eh4)
       | [(H2 & H4 & E) | (H2 & E)]];
  destruct (thermal_efficiency_sens_locals_cases r c d)
    as [(H2' & H4' & l' & E' & E2' & E4' & Eh2' & Eh4')
       | [(H2' & H4' & E') | (H2' & E')]];
  try congruence; rewrite E, E'; cbn [bind ret fst snd].
  - split; [reflexivity|]. split; [split; discriminate|].
    intros t t' m m' [= _ <-] [= _ <-]. repeat split; congruence.
  - split; [reflexivity|]. split; [reflexivity|].
    intros; discriminate.
  - split; [reflexivity|]. split; [reflexivity|].
    intros; discriminate.
Qed.

(** *** The sensitivity loop *)

Lemma fraction_lt (n1 d1 n2 d2 : Q) :
  0 < d1 -> 0 < d2 -> n1 * d2 < n2 * d1 -> n1 / d1 < n2 / d2.
Proof.
  intros H1 H2 H.
  assert (E1 : n1 / d1 * d1 == n1) by (field; lra).
  assert (E2 : n2 / d2 * d2 == n2) by (field; lra).
  remember (n1 / d1) as q1 eqn:Eq1. remember (n2 / d2) as q2 eqn:Eq2.
  clear Eq1 Eq2.
  destruct (Qlt_le_dec q1 q2) as [Hlt | Hge]; [exact Hlt|].
  exfalso.
  assert (Hp : 0 <= (q1 - q2) * (d1 * d2)).
  { apply Qmult_le_0_compat; [lra|]. apply Qlt_le_weak.
    apply Qmult_lt_0_compat; assumption. }
  assert (Ex : (q1 - q2) * (d1 * d2) == q1 * d1 * d2 - q2 * d2 * d1) by ring.
  rewrite Ex, E1, E2 in Hp. lra.
Qed.

(** The efficiency figure as a function of a common component efficiency
    [e], given the isentropic works: it grows with [e]. *)
Lemma sens_value_increasing (h1 h2s h3 h4s e1 e2 : Q) :
  0 < h3 - h4s -> 0 < h2s - h1 -> h3 - h4s <= h3 - h1 ->
  0 < e1 -> e1 < e2 -> e2 <= 1 ->
  h2s - h1 < e1 * (h3 - h1) ->
  (h3 - (h3 - e1 * (h3 - h4s)) - (h1 + (h2s - h1) / e1 - h1))
    / (h3 - (h1 + (h2s - h1) / e1)) * 100
  < (h3 - (h3 - e2 * (h3 - h4s)) - (h1 + (h2s - h1) / e2 - h1))
    / (h3 - (h1 + (h2s - h1) / e2)) * 100.
Proof.
  intros Ha Hb Hac He1 He Hle Hq1.
  remember (h3 - h4s) as a eqn:Ea. remember (h2s - h1) as b eqn:Eb.
  remember (h3 - h1) as c eqn:Ec.
  assert (Hq2 : b < e2 * c) by nra.
  assert (F1 : (h3 - (h3 - e1 * a) - (h1 + b / e1 - h1)) / (h3 - (h1 + b / e1))
               == (e1 * e1 * a - b) / (e1 * c - b)).
  { rewrite Ec. field. split; [| lra]. rewrite Ec in Hq1. lra. }
  assert (F2 : (h3 - (h3 - e2 * a) - (h1 + b / e2 - h1)) / (h3 - (h1 + b / e2))
               == (e2 * e2 * a - b) / (e2 * c - b)).
  { rewrite Ec. field. split; [| lra]. rewrite Ec in Hq2. lra. }
  rewrite F1, F2.
  assert (G : (e1 * e1 * a - b) / (e1 * c - b)
              < (e2 * e2 * a - b) / (e2 * c - b)).
  { apply fraction_lt; [lra | lra |].
    assert (P1 : 0 < a * e1 * (c * e2 - b)).
    { apply Qmult_lt_0_compat; [apply Qmult_lt_0_compat; assumption | lra]. }
    assert (P2 : 0 <= b * (c - a * e2)).
    { apply Qmult_le_0_compat; [lra | nra]. }
    assert (P3 : 0 < (e2 - e1) * (a * e1 * (c * e2 - b) + b * (c - a * e2))).
    { apply Qmult_lt_0_compat; lra. }
    assert (Ex : (e2 * e2 * a - b) * (e1 * c - b)
                 - (e1 * e1 * a - b) * (e2 * c - b)
                 == (e2 - e1) * (a * e1 * (c * e2 - b) + b * (c - a * e2)))
      by ring.
    lra. }
  lra.
Qed.

Lemma sensitivity_loop_returns (r : Q) (efficiencies done : list Q) :
  returns (res_status (brayton_res2 r)) = true ->
  returns (res_status (brayton_res4 r)) = true ->
  exists t values,
    sensitivity_loop r efficiencies done = (t, inr (done ++ values)) /\
    List.length values = List.length efficiencies /\
    (forall i eta, nth_error efficiencies i = Some eta ->
       exists t' v, thermal_efficiency_sens r eta eta = (t', inr v) /\
                    nth_error values i = Some v).
Proof.
  intros H2 H4. revert done.
  induction efficiencies as [| eta rest IH]; intros done.
  - exists [], []. cbn. rewrite app_nil_r. repeat split.
    intros [| i] eta Hi; discriminate.
  - cbn [sensitivity_loop].
    pose proof (thermal_efficiency_sens_value r eta eta H2 H4) as Ev.
    match type of Ev with
    | _ = (?tr, inr ?v) =>
        destruct (IH (done ++ [v])) as (t & values & E & Hlen & Hnth);
        exists (tr ++ t), (v :: values)
    end.
    rewrite Ev. cbn [bind]. rewrite E. split.
    { rewrite <- app_assoc. reflexivity. }
    split; [cbn; lia|].
    intros [| i] eta' Hi; cbn in Hi.
    + injection Hi as <-. eexists. eexists. split; [exact Ev | reflexivity].
    + apply Hnth. exact Hi.
Qed.

Lemma strongly_sorted_nth (l : list Q) :
  StronglySorted Qlt l ->
  forall i j a b, (i < j)%nat ->
    nth_error l i = Some a -> nth_error l j = Some b -> a < b.
Proof.
  induction 1 as [| x l Hl IH Hx]; intros i j a b Hij Hi Hj.
  - destruct i; discriminate.
  - destruct j as [| j]; [lia|]. cbn in Hj. destruct i as [| i]; cbn in Hi.
    + injection Hi as <-. apply nth_error_In in Hj.
      rewrite Forall_forall in Hx. apply Hx. exact Hj.
    + apply (IH i j); [lia | exact Hi | exact Hj].
Qed.

(** X12.  The sensitivity loop keeps the order of a rising list of efficiencies:
    when the isentropic works are positive, the isentropic exhaust is not
    below the inlet enthalpy and the heat input is positive at every
    efficiency of the list, the reported thermal efficiencies rise
    strictly. *)
Theorem sensitivity_is_increasing (r : Q) (efficiencies : list Q) :
  0 < r ->
  returns (res_status (brayton_res2 r)) = true ->
  returns (res_status (brayton_res4 r)) = true ->
  h (res_x (brayton_res4 r)) < h T3 ->
  h T1 < h (res_x (brayton_res2 r)) ->
  h T1 <= h (res_x (brayton_res4 r)) ->
  (forall eta, In eta efficiencies ->
     0 < eta /\ eta <= 1 /\
     h (res_x (brayton_res2 r)) - h T1 < eta * (h T3 - h T1)) ->
  StronglySorted Qlt efficiencies ->
  exists t values,
    sensitivity_loop r efficiencies [] = (t, inr values) /\
    List.length values = List.length efficiencies /\
    (forall i j vi vj, (i < j)%nat ->
       nth_error values i = Some vi ->
       nth_error values j = Some vj -> vi < vj).
Proof.
  intros _ H2 H4 Ha Hb Hac Heta Hsorted.
  pose proof (strongly_sorted_nth efficiencies Hsorted) as Hnth_lt.
  clear Hsorted. rename Hnth_lt into Hsorted.
  destruct (sensitivity_loop_returns r efficiencies [] H2 H4)
    as (t & values & E & Hlen & Hnth).
  exists t, values. split; [exact E|]. split; [exact Hlen|].
  intros i j vi vj Hij Hi Hj.
  assert (Hi' : (i < List.length efficiencies)%nat).
  { rewrite <- Hlen. apply nth_error_Some. rewrite Hi. discriminate. }
  assert (Hj' : (j < List.length efficiencies)%nat).
  { rewrite <- Hlen. apply nth_error_Some. rewrite Hj. discriminate. }
  destruct (nth_error efficiencies i) as [ei |] eqn:Ei;
    [| apply nth_error_None in Ei; lia].
  destruct (nth_error efficiencies j) as [ej |] eqn:Ej;
    [| apply nth_error_None in Ej; lia].
  destruct (Hnth i ei Ei) as (ti & vi' & Evi & Hvi).
  destruct (Hnth j ej Ej) as (tj & vj' & Evj & Hvj).
  rewrite Hi in Hvi. rewrite Hj in Hvj.
  injection Hvi as <-. injection Hvj as <-.
  rewrite (thermal_efficiency_sens_value r ei ei H2 H4) in Evi.
  rewrite (thermal_efficiency_sens_value r ej ej H2 H4) in Evj.
  injection Evi as _ <-. injection Evj as _ <-.
  destruct (Heta ei (nth_error_In _ _ Ei)) as (Hi0 & Hi1 & Hqi).
  destruct (Heta ej (nth_error_In _ _ Ej)) as (Hj0 & Hj1 & Hqj).
  apply sens_value_increasing; try assumption; try lra.
  exact (Hsorted i j ei ej Hij Ei Ej).
Qed.

(** *** Zero entropy change *)

Lemma net_work_value (r : Q) :
  returns (res_status (brayton_res2 r)) = true ->
  returns (res_status (brayton_res4 r)) = true ->
  net_work r =
    (Fsolve (T1 * pow r 0.3) :: warnings (brayton_res2 r) ++
     Fsolve (T3 / pow r 0.3) :: warnings (brayton_res4 r),
     inr ((h T3 - (h T3 - eta_t * (h T3 - h (res_x (brayton_res4 r)))))
          - (h T1 + (h (res_x (brayton_res2 r)) - h T1) / eta_c - h T1))).
Proof.
  intros H2 H4. unfold net_work.
  fold (s_diff_comp (s T1) r). fold (s_diff_turb (s T3) r).
  rewrite (fsolve_returns_ok _ _ H2). cbn [bind].
  rewrite (fsolve_returns_ok _ _ H4). cbn [bind ret].
  rewrite app_nil_r. reflexivity.
Qed.

(** X13.  A ratio whose logarithm is zero (r = 1) asks for no entropy change:
    when both solves end on exact roots of an entropy that takes no value
    twice, the isentropic temperatures are the inlet temperatures and the
    net work is zero. *)
Theorem no_compression_no_work (r : Q) :
  0 < r ->
  np_log r == 0 ->
  returns (res_status (brayton_res2 r)) = true ->
  returns (res_status (brayton_res4 r)) = true ->
  s_diff_comp (s T1) r (res_x (brayton_res2 r)) == 0 ->
  s_diff_turb (s T3) r (res_x (brayton_res4 r)) == 0 ->
  (forall x y, s x == s y -> x == y) ->
  (forall x y, x == y -> h x == h y) ->
  res_x (brayton_res2 r) == T1 /\
  res_x (brayton_res4 r) == T3 /\
  exists t w, net_work r = (t, inr w) /\ w == 0.
Proof.
  intros _ Hlog H2 H4 Z2 Z4 Hinj Hh.
  unfold s_diff_comp in Z2. unfold s_diff_turb in Z4.
  rewrite Hlog in Z2, Z4.
  assert (E2 : res_x (brayton_res2 r) == T1) by (apply Hinj; lra).
  assert (E4 : res_x (brayton_res4 r) == T3) by (apply Hinj; lra).
  split; [exact E2|]. split; [exact E4|].
  eexists. eexists. split; [apply (net_work_value r H2 H4)|].
  rewrite (Hh _ _ E2), (Hh _ _ E4). unfold eta_c, eta_t. field.
Qed.

(** *** Further properties of the combined evaluation *)

Lemma rankine_work_is_a_share (q_to : Q) :
  q_to / q_in_rankine * (q_in_rankine * eta_rankine_1kg / 100)
  == 0.3653 * q_to.
Proof. unfold q_in_rankine, eta_rankine_1kg. field. Qed.

Lemma combined_gain (w wr q qr : Q) :
  wr == 0.3653 * qr -> ~ q == 0 ->
  ((w + wr) / q) * 100 == (w / q) * 100 + 36.53 * qr / q.
Proof. intros E Hq. rewrite E. field. exact Hq. Qed.

Lemma percent_strict (w wr q : Q) :
  0 < q -> 0 < wr -> (w / q) * 100 < ((w + wr) / q) * 100.
Proof.
  intros Hq Hwr. unfold Qdiv.
  pose proof (Qinv_lt_0_compat q Hq) as Hi.
  remember (/ q) as i eqn:Ei. clear Ei. nra.
Qed.

(** X14.  When the bottoming cycle runs, its work is 36.53 per cent of the heat
    handed over, whatever the reference heat input [q_in_rankine] is: that
    constant cancels.  The combined efficiency is the Brayton efficiency
    plus [36.53 * q_to_rankine / q_in_brayton]. *)
Theorem bottoming_gain (r : Q) :
  0 < r ->
  returns (res_status (comb_res2 r)) = true ->
  returns (res_status (comb_res4 r)) = true ->
  returns (res_status (comb_res r)) = true ->
  exists t l,
    calculate_efficiencies_comb_locals r = (t, inr l) /\
    (T4_limit <= Comb.T4_real l ->
     exists k,
       Comb.rankine l = Some k /\
       Rankine.w_rankine k == 0.3653 * Rankine.q_to_rankine k /\
       (~ Comb.q_in_brayton l == 0 ->
        Comb.eta_combined l ==
          Comb.eta_brayton l
          + 36.53 * Rankine.q_to_rankine k / Comb.q_in_brayton l)).
Proof.
  intros _ H2 H4 H.
  destruct (calculate_efficiencies_comb_locals_frame r H2 H4 H)
    as (l & E & _ & _ & (Ew & Eq & Eb) & Hbranch).
  eexists. exists l. split; [exact E|].
  intros Hge. apply Qle_bool_iff in Hge. rewrite Hge in Hbranch.
  destruct Hbranch as (k & Ek & Es & Eqr & Em & Ewr & Ec).
  exists k. split; [exact Ek|].
  assert (Hw : Rankine.w_rankine k == 0.3653 * Rankine.q_to_rankine k).
  { rewrite Ewr, Em. apply rankine_work_is_a_share. }
  split; [exact Hw|].
  intros Hq. rewrite Ec, Eb. apply combined_gain; assumption.
Qed.

(** X15.  With an enthalpy that rises with temperature and an inverse solve that
    ends on an exact root, the guard [max(0, .)] never acts when the
    bottoming cycle runs: the stack at 460 K is colder than the exhaust, so
    the heat handed over is [h4 - h(T_stack)] and positive, and with a
    positive heat input the combined efficiency is strictly above the
    Brayton efficiency. *)
Theorem stack_guard_is_idle (r : Q) :
  0 < r ->
  returns (res_status (comb_res2 r)) = true ->
  returns (res_status (comb_res4 r)) = true ->
  returns (res_status (comb_res r)) = true ->
  (forall x y, x < y -> h x < h y) ->
  exists t l,
    calculate_efficiencies_comb_locals r = (t, inr l) /\
    (h (Comb.T4_real l) == Comb.h4 l ->
     T4_limit <= Comb.T4_real l ->
     exists k,
       Comb.rankine l = Some k /\
       Rankine.q_to_rankine k = Comb.h4 l - h T_stack /\
       0 < Rankine.q_to_rankine k /\
       (0 < Comb.q_in_brayton l ->
        Comb.eta_brayton l < Comb.eta_combined l)).
Proof.
  intros _ H2 H4 H Hmono.
  destruct (calculate_efficiencies_comb_locals_frame r H2 H4 H)
    as (l & E & _ & _ & (Ew & Eq & Eb) & Hbranch).
  eexists. exists l. split; [exact E|].
  intros Hroot Hge.
  assert (Hstack : h T_stack < Comb.h4 l).
  { rewrite <- Hroot. apply Hmono.
    apply Qlt_le_trans with (y := T4_limit); [reflexivity | exact Hge]. }
  apply Qle_bool_iff in Hge. rewrite Hge in Hbranch.
  destruct Hbranch as (k & Ek & Es & Eqr & Em & Ewr & Ec).
  exists k. split; [exact Ek|].
  assert (Hq : Rankine.q_to_rankine k = Comb.h4 l - h T_stack).
  { rewrite Eqr, Es. unfold max2.
    destruct (Qlt_le_dec 0 (Comb.h4 l - h T_stack)) as [_ | Hle];
      [reflexivity | lra]. }
  split; [exact Hq|]. split; [rewrite Hq; lra|].
  intros Hpos. rewrite Eb, Ec. apply percent_strict; [exact Hpos|].
  assert (Hw : Rankine.w_rankine k == 0.3653 * Rankine.q_to_rankine k).
  { rewrite Ewr, Em. apply rankine_work_is_a_share. }
  rewrite Hw, Hq. lra.
Qed.

(** X18.  The fourth copy of the Brayton evaluation, inside the combined
    evaluator, starts its solves from other seeds (350 and 1000).  When
    all four isentropic solves end on exact roots of an entropy that takes
    no value twice, its Brayton efficiency is the thermal efficiency of
    part 1 in per cent. *)
Theorem combined_brayton_agrees (r : Q) :
  0 < r ->
  returns (res_status (brayton_res2 r)) = true ->
  returns (res_status (brayton_res4 r)) = true ->
  returns (res_status (comb_res2 r)) = true ->
  returns (res_status (comb_res4 r)) = true ->
  returns (res_status (comb_res r)) = true ->
  s_diff_comp (s T1) r (res_x (brayton_res2 r)) == 0 ->
  s_diff_turb (s T3) r (res_x (brayton_res4 r)) == 0 ->
  s_diff_comp (s T1) r (res_x (comb_res2 r)) == 0 ->
  s_diff_turb (s T3) r (res_x (comb_res4 r)) == 0 ->
  (forall x y, s x == s y -> x == y) ->
  (forall x y, x == y -> h x == h y) ->
  exists t t' l v,
    calculate_efficiencies_comb_locals r = (t, inr l) /\
    thermal_efficiency r = (t', inr v) /\
    Comb.T2s l == res_x (brayton_res2 r) /\
    Comb.T4s l == res_x (brayton_res4 r) /\
    Comb.eta_brayton l == v * 100.
Proof.
  intros _ H2 H4 G2 G4 G Z2 Z4 Y2 Y4 Hinj Hh.
  destruct (calculate_efficiencies_comb_locals_frame r G2 G4 G)
    as (l & E & (E2 & E4 & ET) & (Eh1 & Eh2s & Eh2 & Eh3 & Eh4s & Eh4)
        & (Ew & Eq & Eb) & _).
  pose proof (thermal_efficiency_sens_locals_frame r eta_c eta_t H2 H4) as F.
  cbv zeta in F.
  unfold s_diff_comp in Z2, Y2. unfold s_diff_turb in Z4, Y4.
  assert (X2 : res_x (comb_res2 r) == res_x (brayton_res2 r))
    by (apply Hinj; lra).
  assert (X4 : res_x (comb_res4 r) == res_x (brayton_res4 r))
    by (apply Hinj; lra).
  eexists. eexists. exists l. eexists. split; [exact E|]. split.
  { unfold thermal_efficiency. rewrite thermal_efficiency_locals_sens, F.
    cbn [bind ret]. rewrite app_nil_r. reflexivity. }
  split; [rewrite E2; exact X2|]. split; [rewrite E4; exact X4|].
  cbn [Brayton.w_net Brayton.q_in].
  rewrite Eb, Ew, Eq, Eh4, Eh2, Eh4s, Eh2s, Eh3, Eh1, E2, E4.
  rewrite (Hh _ _ X2), (Hh _ _ X4). reflexivity.
Qed.

(** *** When the sweep returns *)

Lemma net_work_outcome (r : Q) :
  (returns (res_status (brayton_res2 r)) = true /\
   returns (res_status (brayton_res4 r)) = true /\
   exists t w, net_work r = (t, inr w)) \/
  ((returns (res_status (brayton_res2 r)) = false \/
    returns (res_status (brayton_res4 r)) = false) /\
   exists t msg, net_work r = (t, inl (PyExn TypeError msg))).
Proof.
  destruct (returns (res_status (brayton_res2 r))) eqn:H2.
  - destruct (returns (res_status (brayton_res4 r))) eqn:H4.
    + left. split; [reflexivity|]. split; [reflexivity|].
      eexists. eexists. apply (net_work_value r H2 H4).
    + right. split; [right; reflexivity|].
      unfold net_work.
      fold (s_diff_comp (s T1) r). fold (s_diff_turb (s T3) r).
      rewrite (fsolve_returns_ok _ _ H2). cbn [bind].
      rewrite (fsolve_raises _ _ H4). cbn [bind]. eauto.
  - right. split; [left; reflexivity|].
    unfold net_work.
    fold (s_diff_comp (s T1) r). fold (s_diff_turb (s T3) r).
    rewrite (fsolve_raises _ _ H2). cbn [bind]. eauto.
Qed.

(** A comprehension returns exactly when every element does; otherwise it
    ends with the exception of the first element that raises. *)
Lemma comprehension_outcome {A B : Type} (f : A -> py B) (xs : list A) :
  (exists t ys, comprehension f xs = (t, inr ys) /\
                forall x, In x xs -> exists t' y, f x = (t', inr y)) \/
  (exists t e x t', comprehension f xs = (t, inl e) /\
                    In x xs /\ f x = (t', inl e)).
Proof.
  induction xs as [| x xs IH].
  - left. exists [], []. split; [reflexivity|]. intros x [].
  - cbn [comprehension]. destruct (f x) as [t [e | y]] eqn:Ex.
    + right. exists t, e, x, t. cbn. auto.
    + destruct IH as [(t' & ys & E & Hall) | (t' & e & x' & t'' & E & Hin & Ex')].
      * left. exists (t ++ t'), (y :: ys). cbn [bind]. rewrite E.
        cbn [bind ret]. rewrite !app_nil_r. split; [reflexivity|].
        intros z [<- | Hz]; [eauto | apply Hall; exact Hz].
      * right. exists (t ++ t'), e, x', t''. cbn [bind]. rewrite E.
        cbn. auto.
Qed.

Lemma comprehension_length {A B : Type} (f : A -> py B) (xs : list A)
  (t : list event) (ys : list B) :
  comprehension f xs = (t, inr ys) -> List.length ys = List.length xs.
Proof.
  revert t ys. induction xs as [| x xs IH]; intros t ys E; cbn in E.
  - injection E as _ <-. reflexivity.
  - destruct (f x) as [t1 [e | y]]; cbn in E; [discriminate|].
    destruct (comprehension f xs) as [t2 [e | ys']] eqn:E'; cbn in E;
      [discriminate|].
    injection E as _ <-. cbn. rewrite (IH t2 ys' eq_refl). reflexivity.
Qed.

(** X16.  The net-work sweep returns a result exactly when the sequence of ratios
    is not empty and both solves return at every ratio.  On the empty
    sequence it ends with the [ValueError] of [max] and never enters the
    solver; when a solve does not return, with the [TypeError] of
    [fsolve], and no partial result is reported. *)
Theorem sweep_returns_iff (r_values : list Q) :
  (forall r, In r r_values -> 0 < r) ->
  ((exists t res, net_work_sweep r_values = (t, inr res)) <->
   (r_values <> [] /\
    forall r, In r r_values ->
      returns (res_status (brayton_res2 r)) = true /\
      returns (res_status (brayton_res4 r)) = true)) /\
  (r_values = [] ->
   exists msg, net_work_sweep r_values = ([], inl (PyExn ValueError msg))) /\
  ((exists r, In r r_values /\
      (returns (res_status (brayton_res2 r)) = false \/
       returns (res_status (brayton_res4 r)) = false)) ->
   exists t msg, net_work_sweep r_values = (t, inl (PyExn TypeError msg))).
Proof.
  intros _.
  assert (Hraise : (exists r, In r r_values /\
             (returns (res_status (brayton_res2 r)) = false \/
              returns (res_status (brayton_res4 r)) = false)) ->
          exists t msg,
            net_work_sweep r_values = (t, inl (PyExn TypeError msg))).
  { intros (r & Hin & Hbad). unfold net_work_sweep.
    destruct (comprehension_outcome net_work r_values)
      as [(t & ws & E & Hall) | (t & e & x & t' & E & Hx & Ex)].
    - exfalso. destruct (Hall r Hin) as (t' & w & Ew).
      destruct (net_work_outcome r) as [(H2 & H4 & _) | (_ & t'' & msg & Er)];
        [destruct Hbad; congruence | congruence].
    - rewrite E. cbn [bind].
      destruct (net_work_outcome x) as [(_ & _ & t'' & w & Ew)
                                       | (_ & t'' & msg & Er)];
        [congruence|].
      rewrite Er in Ex. injection Ex as _ <-. eauto. }
  split; [| split; [intros ->; eexists; reflexivity | exact Hraise]].
  split.
  - intros (t & res & E). split.
    + intros ->. discriminate.
    + intros r Hin.
      destruct (returns (res_status (brayton_res2 r))) eqn:H2;
        [destruct (returns (res_status (brayton_res4 r))) eqn:H4;
           [auto|]|].
      * destruct Hraise as (t' & msg & E');
          [exists r; auto | congruence].
      * destruct Hraise as (t' & msg & E');
          [exists r; auto | congruence].
  - intros (Hne & Hall). unfold net_work_sweep.
    destruct (comprehension_outcome net_work r_values)
      as [(t & ws & E & _) | (t & e & x & t' & E & Hx & Ex)].
    + rewrite E. cbn [bind].
      pose proof (comprehension_length _ _ _ _ E) as Hlen.
      destruct ws as [| w0 ws'].
      { destruct r_values; [congruence | discriminate]. }
      cbn [py_max np_argmax bind ret].
      destruct (max_argmax_spec w0 ws') as [Hat _].
      assert (Ha : (argmax_from w0 0 1 ws' < List.length r_values)%nat).
      { rewrite <- Hlen. apply nth_error_Some. rewrite Hat. discriminate. }
      unfold index.
      destruct (nth_error r_values (argmax_from w0 0 1 ws')) as [r_at |]
        eqn:Er; [| apply nth_error_None in Er; lia].
      cbn. eauto.
    + exfalso. destruct (Hall x Hx) as [H2 H4].
      destruct (net_work_outcome x) as [(_ & _ & t'' & w & Ew)
                                       | ([Hb | Hb] & _)]; congruence.
Qed.
End Evaluators.

(** ** Loading the property table *)

Section DataLoadingProperties.

Variable open_read : string -> exn + string.
Variable path_exists : string -> bool.
Variable re_findall : string -> list string.
Variable float : string -> Q.
Variable make_interp_spline : list Q -> list Q -> py (Q -> Q).

Lemma np_zeros_10_6 :
  np_zeros 10 6 = repeat [0; 0; 0; 0; 0; 0] 10 /\
  matrix_sum (np_zeros 10 6) = 0.
Proof. split; reflexivity. Qed.

(** The ten temperatures of the matrix of zeros are one abscissa repeated:
    [interp1d] refuses them, whatever the ordinates. *)
Lemma interp1d_zero_table (j : nat) :
  interp1d make_interp_spline
    (T_data (np_zeros 10 6)) (column j (np_zeros 10 6)) =
    ([], inl (PyExn ValueError "Expect x to not have duplicates")).
Proof.
  unfold interp1d.
  replace (List.length (T_data (np_zeros 10 6))
             =? List.length (column j (np_zeros 10 6)))%nat
    with true by (unfold T_data, column; rewrite !length_map; symmetry;
                  apply Nat.eqb_refl).
  cbn [negb].
  assert (Hx : adjacent_equal
                 (map fst (argsort_take (T_data (np_zeros 10 6))
                             (column j (np_zeros 10 6)))) = true).
  { unfold T_data, column, np_zeros. cbn [repeat map].
    do 6 (destruct j as [| j]; [reflexivity|]).
    destruct j; reflexivity. }
  rewrite Hx. reflexivity.
Qed.

(** C10.  When opening or reading the file raises, whether
    [FileNotFoundError] or any other exception, [load_data] prints one
    message and returns the 10-by-6 matrix of zeros, and the module prints
    its warning.  The run does not go on with that matrix: the first
    [interp1d] raises [ValueError] on it, after the two printed lines. *)
Theorem load_data_swallows_errors (filename : string) (e : exn) :
  open_read filename = inl e ->
  let message :=
    match exn_cls e with
    | FileNotFoundError =>
        ("Error: " ++ filename ++
         " not found. Please ensure it is in the data/ folder.")%string
    | _ => ("An error occurred loading data: " ++ exn_msg e)%string
    end in
  load_data open_read re_findall float filename =
    ([Printed message], inr (np_zeros 10 6)) /\
  np_zeros 10 6 = repeat [0; 0; 0; 0; 0; 0] 10 /\
  (filename = data_path path_exists ->
   data open_read path_exists re_findall float =
     ([Printed message;
       Printed "WARNING: Data loaded is empty. Check AirDataSonntag.txt file."],
      inr (np_zeros 10 6))) /\
  (filename = data_path path_exists ->
   exists msg,
     interpolants open_read path_exists re_findall float make_interp_spline =
       ([Printed message;
         Printed "WARNING: Data loaded is empty. Check AirDataSonntag.txt file."],
        inl (PyExn ValueError msg))).
Proof.
  intros He message.
  assert (E : load_data open_read re_findall float filename =
              ([Printed message], inr (np_zeros 10 6))).
  { unfold load_data, read_file. rewrite He. subst message.
    destruct e as [cls msg]. destruct cls; reflexivity. }
  assert (D : filename = data_path path_exists ->
              data open_read path_exists re_findall float =
                ([Printed message;
                  Printed "WARNING: Data loaded is empty. Check AirDataSonntag.txt file."],
                 inr (np_zeros 10 6))).
  { intros Hpath. unfold data. rewrite <- Hpath, E. reflexivity. }
  split; [exact E|]. split; [reflexivity|]. split; [exact D|].
  intros Hpath. unfold interpolants. rewrite (D Hpath). cbn [bind].
  unfold h_data. rewrite interp1d_zero_table. cbn [bind app].
  eexists. reflexivity.
Qed.


(** *** The matrix built from the numbers of the file *)

Lemma reshape_length (rows cols : nat) (numbers : list Q) :
  List.length (reshape rows cols numbers) = rows.
Proof.
  revert numbers. induction rows as [| rows IH]; intros numbers; cbn.
  - reflexivity.
  - rewrite IH. reflexivity.
Qed.

Lemma reshape_rows (rows cols : nat) (numbers : list Q) :
  (rows * cols <= List.length numbers)%nat ->
  Forall (fun row => List.length row = cols) (reshape rows cols numbers).
Proof.
  revert numbers. induction rows as [| rows IH]; intros numbers Hlen; cbn.
  - constructor.
  - cbn in Hlen. constructor.
    + apply firstn_length_le. lia.
    + apply IH. rewrite length_skipn. lia.
Qed.

Lemma reshape_concat (rows cols : nat) (numbers : list Q) :
  (rows * cols <= List.length numbers)%nat ->
  List.concat (reshape rows cols numbers) = firstn (rows * cols) numbers.
Proof.
  revert numbers. induction rows as [| rows IH]; intros numbers Hlen; cbn.
  - reflexivity.
  - cbn in Hlen. rewrite IH by (rewrite length_skipn; lia).
    rewrite <- (firstn_skipn cols numbers) at 3.
    rewrite firstn_app, firstn_firstn.
    rewrite firstn_length_le by lia.
    replace (Nat.min (cols + rows * cols) cols) with cols by lia.
    replace (cols + rows * cols - cols)%nat with (rows * cols)%nat by lia.
    reflexivity.
Qed.

Lemma np_zeros_rows (rows cols : nat) :
  Forall (fun row => List.length row = cols) (np_zeros rows cols).
Proof.
  unfold np_zeros. apply Forall_forall. intros row Hrow.
  apply repeat_spec in Hrow. subst row. apply repeat_length.
Qed.

Lemma load_data_reads (filename content : string) :
  open_read filename = inr content ->
  let numbers := map float (re_findall content) in
  let rows := (List.length numbers / 6)%nat in
  load_data open_read re_findall float filename =
    ([], inr (reshape rows 6 (firstn (rows * 6) numbers))) /\
  (rows * 6 <= List.length numbers)%nat /\
  List.length (firstn (rows * 6) numbers) = (rows * 6)%nat.
Proof.
  intros Hread numbers rows.
  assert (Hfit : (rows * 6 <= List.length numbers)%nat).
  { unfold rows. rewrite Nat.mul_comm. apply Nat.Div0.mul_div_le. }
  split; [| split; [exact Hfit | apply firstn_length_le; exact Hfit]].
  unfold load_data, read_file. rewrite Hread. reflexivity.
Qed.

(** X1.  When the file can be read, [load_data] prints nothing and returns
    [len(numbers) // 6] rows of six entries each: the numbers of the file
    in order, row after row, without the last [len(numbers) % 6]. *)
Theorem load_data_matrix (filename content : string) :
  open_read filename = inr content ->
  exists m,
    load_data open_read re_findall float filename = ([], inr m) /\
    List.length m = (List.length (re_findall content) / 6)%nat /\
    Forall (fun row => List.length row = 6%nat) m /\
    (exists dropped,
       map float (re_findall content) = List.concat m ++ dropped /\
       List.length dropped = (List.length (re_findall content) mod 6)%nat).
Proof.
  intros Hread.
  destruct (load_data_reads filename content Hread) as (E & Hfit & Hlen).
  set (numbers := map float (re_findall content)) in *.
  set (rows := (List.length numbers / 6)%nat) in *.
  exists (reshape rows 6 (firstn (rows * 6) numbers)).
  split; [exact E|]. split.
  { rewrite reshape_length. unfold rows, numbers.
    rewrite length_map. reflexivity. }
  split.
  { apply reshape_rows. lia. }
  exists (skipn (rows * 6) numbers). split.
  - rewrite reshape_concat by lia. rewrite firstn_firstn.
    replace (Nat.min (rows * 6) (rows * 6)) with (rows * 6)%nat by lia.
    symmetry. apply firstn_skipn.
  - rewrite length_skipn. unfold rows.
    replace (List.length (re_findall content)) with (List.length numbers)
      by (unfold numbers; apply length_map).
    pose proof (Nat.div_mod_eq (List.length numbers) 6). lia.
Qed.

(** X2.  [load_data] never raises, whatever happens to the file, and every row
    of the matrix it returns has six entries; the same holds for the
    module-level [data], so its columns 0, 1 and 5 exist and have the
    number of rows as their length. *)
Theorem load_data_never_raises (filename : string) :
  (exists t m,
     load_data open_read re_findall float filename = (t, inr m) /\
     Forall (fun row => List.length row = 6%nat) m) /\
  (exists t m,
     data open_read path_exists re_findall float = (t, inr m) /\
     Forall (fun row => List.length row = 6%nat) m /\
     List.length (T_data m) = List.length m /\
     List.length (h_data m) = List.length m /\
     List.length (s_data m) = List.length m).
Proof.
  assert (G : forall name, exists t m,
             load_data open_read re_findall float name = (t, inr m) /\
             Forall (fun row => List.length row = 6%nat) m).
  { intros name. destruct (open_read name) as [e | content] eqn:Hread.
    - exists (fst (load_data open_read re_findall float name)),
             (np_zeros 10 6).
      split; [| apply np_zeros_rows].
      unfold load_data, read_file. rewrite Hread.
      destruct e as [cls msg]. destruct cls; reflexivity.
    - destruct (load_data_reads name content Hread) as (E & Hfit & Hlen).
      eexists. eexists. split; [exact E|]. apply reshape_rows. lia. }
  split; [apply G|].
  destruct (G (data_path path_exists)) as (t & m & E & H6).
  unfold data. rewrite E. cbn [bind].
  destruct (Qeq_bool (matrix_sum m) 0); cbn;
    eexists; exists m; (split; [reflexivity|]);
    (split; [exact H6|]);
    unfold T_data, h_data, s_data, column; rewrite !length_map; auto.
Qed.

(** X3.  A readable file with fewer than six numbers gives the empty matrix and
    no message from [load_data]; the only sign is the module's warning,
    since the empty matrix sums to zero. *)
Theorem short_file_gives_empty_matrix (filename content : string) :
  open_read filename = inr content ->
  (List.length (re_findall content) < 6)%nat ->
  load_data open_read re_findall float filename = ([], inr []) /\
  (filename = data_path path_exists ->
   data open_read path_exists re_findall float =
     ([Printed
         "WARNING: Data loaded is empty. Check AirDataSonntag.txt file."],
      inr [])).
Proof.
  intros Hread Hshort.
  destruct (load_data_reads filename content Hread) as (E & _ & _).
  rewrite length_map in E.
  rewrite (Nat.div_small _ 6 Hshort) in E. cbn in E.
  split; [exact E|].
  intros Hpath. unfold data. rewrite <- Hpath, E. reflexivity.
Qed.
(** *** The interpolants *)

Lemma insert_point_perm (p : Q * Q) (points : list (Q * Q)) :
  Permutation (insert_point p points) (p :: points).
Proof.
  induction points as [| q rest IH]; cbn.
  - reflexivity.
  - destruct (Qle_bool (fst p) (fst q)); [reflexivity|].
    rewrite IH. apply perm_swap.
Qed.

Lemma argsort_take_perm (x y : list Q) :
  Permutation (argsort_take x y) (combine x y).
Proof.
  unfold argsort_take. induction (combine x y) as [| p rest IH]; cbn.
  - constructor.
  - rewrite insert_point_perm. constructor. exact IH.
Qed.

Lemma insert_point_sorted (p : Q * Q) (points : list (Q * Q)) :
  Sorted Qle (map fst points) ->
  Sorted Qle (map fst (insert_point p points)).
Proof.
  induction points as [| q rest IH]; cbn; intros Hs.
  - repeat constructor.
  - destruct (Qle_bool (fst p) (fst q)) eqn:E; cbn.
    + constructor; [exact Hs|]. constructor. apply Qle_bool_iff. exact E.
    + assert (Hqp : fst q <= fst p).
      { apply Qlt_le_weak, Qnot_le_lt. intros H.
        apply Qle_bool_iff in H. congruence. }
      inversion Hs as [| ? ? Hs' Hh]; subst. constructor.
      * apply IH. exact Hs'.
      * destruct rest as [| q' rest']; cbn.
        -- constructor. exact Hqp.
        -- destruct (Qle_bool (fst p) (fst q')); cbn; constructor.
           ++ exact Hqp.
           ++ inversion Hh; subst. assumption.
Qed.

Lemma argsort_take_sorted (x y : list Q) :
  Sorted Qle (map fst (argsort_take x y)).
Proof.
  unfold argsort_take. induction (combine x y) as [| p rest IH]; cbn.
  - constructor.
  - apply insert_point_sorted. exact IH.
Qed.

Lemma abscissae_of_combine (x y : list Q) :
  List.length x = List.length y -> map fst (combine x y) = x.
Proof.
  revert y. induction x as [| a x IH]; intros [| b y] H; cbn in *;
    try discriminate; [reflexivity|].
  f_equal. apply IH. lia.
Qed.

Lemma points_of_columns (points : list (Q * Q)) :
  combine (map fst points) (map snd points) = points.
Proof.
  induction points as [| [a b] rest IH]; cbn;
    [reflexivity | rewrite IH; reflexivity].
Qed.

(** Rising abscissae without equal neighbours rise strictly. *)
Lemma sorted_strict (xs : list Q) :
  Sorted Qle xs -> adjacent_equal xs = false -> StronglySorted Qlt xs.
Proof.
  induction xs as [| a xs IH]; intros Hs Ha; [constructor|].
  destruct xs as [| b xs]; [repeat constructor|].
  cbn [adjacent_equal] in Ha. apply orb_false_elim in Ha as [Hab Ha].
  inversion Hs as [| ? ? Hs' Hh]; subst.
  inversion Hh as [| ? ? Hle]; subst.
  assert (Hlt : a < b).
  { apply Qeq_bool_neq in Hab. apply Qle_lteq in Hle as [Hlt | Heq];
      [exact Hlt | contradiction]. }
  specialize (IH Hs' Ha). constructor; [exact IH|].
  constructor; [exact Hlt|].
  apply StronglySorted_inv in IH as [_ Hall].
  eapply Forall_impl; [| exact Hall].
  intros c Hc. cbn in Hc. lra.
Qed.

Lemma strict_distinct (xs : list Q) :
  StronglySorted Qlt xs -> NoDupA Qeq xs.
Proof.
  induction 1 as [| a xs Hs IH Hall]; constructor; [| exact IH].
  intros Hin. apply InA_alt in Hin as (b & Hab & Hb).
  rewrite Forall_forall in Hall. specialize (Hall b Hb). lra.
Qed.

Lemma equal_neighbours_repeat (xs : list Q) :
  adjacent_equal xs = true -> ~ NoDupA Qeq xs.
Proof.
  induction xs as [| a xs IH]; intros Ha Hnd; [discriminate|].
  destruct xs as [| b xs]; [discriminate|].
  cbn [adjacent_equal] in Ha. inversion Hnd as [| ? ? Hnot Hnd']; subst.
  apply orb_true_iff in Ha as [Hab | Ha].
  - apply Hnot. constructor. apply Qeq_bool_iff. exact Hab.
  - exact (IH Ha Hnd').
Qed.

Lemma distinct_perm (xs ys : list Q) :
  Permutation xs ys -> NoDupA Qeq xs -> NoDupA Qeq ys.
Proof.
  intros Hp Hnd.
  eapply PermutationA_preserves_NoDupA; [typeclasses eauto | | exact Hnd].
  apply Permutation_PermutationA; try typeclasses eauto. exact Hp.
Qed.

(** Sorting brings equal abscissae next to one another: the check on the
    neighbours finds a repeat exactly when there is one. *)
Lemma adjacent_equal_spec (x y : list Q) :
  List.length x = List.length y ->
  (adjacent_equal (map fst (argsort_take x y)) = false <-> NoDupA Qeq x).
Proof.
  intros Hlen.
  assert (Hp : Permutation (map fst (argsort_take x y)) x).
  { rewrite <- (abscissae_of_combine x y Hlen) at 2.
    apply Permutation_map, argsort_take_perm. }
  split.
  - intros Ha. apply (distinct_perm _ _ Hp).
    apply strict_distinct, sorted_strict; [apply argsort_take_sorted | exact Ha].
  - intros Hnd.
    destruct (adjacent_equal (map fst (argsort_take x y))) eqn:Ha;
      [| reflexivity].
    exfalso. apply (equal_neighbours_repeat _ Ha).
    apply (distinct_perm x); [symmetry; exact Hp | exact Hnd].
Qed.

Lemma columns_length (j k : nat) (m : matrix) :
  List.length (column j m) = List.length (column k m).
Proof. unfold column. rewrite !length_map. reflexivity. Qed.

(** X19.  A table that repeats a temperature, in whatever rows, does not get
    past the first [interp1d]: the run ends there with [ValueError], after
    what loading the table printed. *)
Theorem repeated_temperature_stops_the_run (t : list event) (m : matrix) :
  data open_read path_exists re_findall float = (t, inr m) ->
  ~ NoDupA Qeq (T_data m) ->
  exists msg,
    interpolants open_read path_exists re_findall float make_interp_spline =
      (t, inl (PyExn ValueError msg)).
Proof.
  intros Hdata Hrep. unfold interpolants. rewrite Hdata. cbn [bind].
  unfold interp1d at 1.
  assert (Hlen : List.length (T_data m) = List.length (h_data m))
    by apply columns_length.
  rewrite Hlen, Nat.eqb_refl. cbn [negb].
  destruct (adjacent_equal (map fst (argsort_take (T_data m) (h_data m))))
    eqn:Ha.
  - cbn [raise bind]. rewrite app_nil_r. eexists. reflexivity.
  - exfalso. apply Hrep. apply (adjacent_equal_spec _ _ Hlen). exact Ha.
Qed.

(** X20.  Points with pairwise different abscissae pass the checks of
    [interp1d] in any order: the spline construction receives the same
    points, rearranged so that the abscissae rise strictly. *)
Theorem interp1d_sorts_the_points (x y : list Q) :
  List.length x = List.length y ->
  NoDupA Qeq x ->
  exists xx yy,
    interp1d make_interp_spline x y = make_interp_spline xx yy /\
    Permutation (combine xx yy) (combine x y) /\
    List.length xx = List.length yy /\
    StronglySorted Qlt xx.
Proof.
  intros Hlen Hnd.
  exists (map fst (argsort_take x y)), (map snd (argsort_take x y)).
  assert (Ha : adjacent_equal (map fst (argsort_take x y)) = false)
    by (apply adjacent_equal_spec; assumption).
  split; [| split; [| split]].
  - unfold interp1d. rewrite Hlen, Nat.eqb_refl. cbn [negb].
    rewrite Ha. reflexivity.
  - rewrite points_of_columns. apply argsort_take_perm.
  - rewrite !length_map. reflexivity.
  - apply sorted_strict; [apply argsort_take_sorted | exact Ha].
Qed.

End DataLoadingProperties.

(** * The evaluators on sample collaborators *)

Ltac evaluate := vm_compute; reflexivity.

(** The sample entropies [s_air] and [s_knee] rise strictly with
    temperature, as the entropy of a gas does. *)
Lemma sample_entropies_increase (a b : Q) :
  a < b ->
  Sample.s_air a < Sample.s_air b /\ Sample.s_knee a < Sample.s_knee b.
Proof.
  intros Hab. unfold Sample.s_air, Sample.s_knee.
  assert (E400 : forall x, x / 400 == x * 0.0025) by (intros; field).
  assert (E1000 : forall x, x / 1000 == x * 0.001) by (intros; field).
  assert (E10000 : forall x, x / 10000 == x * 0.0001) by (intros; field).
  assert (E100 : forall x, x / 100 == x * 0.01) by (intros; field).
  assert (Hfalse : forall x y, Qle_bool x y = false -> y < x).
  { intros x y H. apply Qnot_le_lt. rewrite <- Qle_bool_iff. congruence. }
  split.
  - destruct (Qle_bool a 600) eqn:Ha; destruct (Qle_bool b 600) eqn:Hb;
      try (apply Qle_bool_iff in Ha); try (apply Qle_bool_iff in Hb);
      try (apply Hfalse in Ha); try (apply Hfalse in Hb);
      rewrite ?E400, ?E1000; lra.
  - destruct (Qle_bool a 1150) eqn:Ha; destruct (Qle_bool b 1150) eqn:Hb;
      try (apply Qle_bool_iff in Ha); try (apply Qle_bool_iff in Hb);
      try (apply Hfalse in Ha); try (apply Hfalse in Hb);
      rewrite ?E10000, ?E100; lra.
Qed.

(** The ratios of the net-work sweep: twelve samples from 2 to 30. *)
Lemma r_values_2_samples :
  List.length r_values_2 = 12%nat /\
  nth_error r_values_2 0 = Some (2 + 0 * ((30 - 2) / 11)) /\
  (forall r, In r r_values_2 -> 2 <= r /\ r <= 30).
Proof.
  split; [reflexivity|]. split; [reflexivity|].
  intros r Hr. vm_compute in Hr.
  repeat (destruct Hr as [<- | Hr]; [split; vm_compute; discriminate|]).
  destruct Hr.
Qed.

Lemma brayton_evaluator_formulas_witness :
  0 < 2 /\
  exists t l,
    thermal_efficiency_locals
      Sample.h_lin Sample.s_air Sample.np_log Sample.pow Sample.hybrd 2
      = (t, inr l) /\
    thermal_efficiency
      Sample.h_lin Sample.s_air Sample.np_log Sample.pow Sample.hybrd 2
      = (t, inr (Brayton.w_net l / Brayton.q_in l)) /\
    Sample.s_air (Brayton.T2s l)
      == Sample.s_air T1 + R * Sample.np_log 2.
Proof.
  split; [reflexivity|].
  destruct (brayton_evaluator_formulas
              Sample.h_lin Sample.s_air Sample.np_log Sample.pow Sample.hybrd
              2)
    as (t & l & E & E' & Es1 & _ & E2 & _ & Hroot & _);
    [reflexivity | evaluate | evaluate |].
  exists t, l. split; [exact E|]. split; [exact E'|].
  rewrite <- Es1. apply Hroot. rewrite E2, Es1. evaluate.
Defined.

Lemma component_state_model_witness :
  0 < 2 /\
  exists t l,
    thermal_efficiency_sens_locals
      Sample.h_lin Sample.s_air Sample.np_log Sample.pow Sample.hybrd
      2 0.86 0.94 = (t, inr l) /\
    Brayton.h2 l = Brayton.h1 l + (Brayton.h2s l - Brayton.h1 l) / 0.86 /\
    Brayton.h4 l = Brayton.h3 l - 0.94 * (Brayton.h3 l - Brayton.h4s l).
Proof.
  split; [reflexivity|].
  destruct (component_state_model
              Sample.h_lin Sample.s_air Sample.np_log Sample.pow Sample.hybrd
              2 0.86 0.94) as [(t & l & E & E2 & E4) _];
    [reflexivity | evaluate | evaluate |].
  exists t, l. auto.
Defined.

(** At ratio 2 on the sample air the exhaust is at 1021 K: the bottoming
    cycle runs, and the combined efficiency in the result is 36.3 (per
    cent), not the fraction 0.363. *)
Lemma combined_efficiency_is_a_percentage :
  exists t l k,
    calculate_efficiencies_comb_locals
      Sample.h_lin Sample.s_air Sample.np_log Sample.hybrd 2 = (t, inr l) /\
    T4_limit <= Comb.T4_real l /\
    Comb.rankine l = Some k /\
    36 < Comb.eta_combined l /\
    (Comb.w_net_brayton l + Rankine.w_rankine k) / Comb.q_in_brayton l < 1 /\
    ~ Comb.eta_combined l ==
        (Comb.w_net_brayton l + Rankine.w_rankine k) / Comb.q_in_brayton l.
Proof.
  remember (calculate_efficiencies_comb_locals
              Sample.h_lin Sample.s_air Sample.np_log Sample.hybrd 2)
    as m eqn:E.
  vm_compute in E. subst m.
  eexists. eexists. eexists. split; [reflexivity|].
  split; [vm_compute; discriminate|].
  split; [reflexivity|].
  split; [evaluate|].
  split; [evaluate|].
  vm_compute. discriminate.
Qed.

Lemma combined_evaluator_percent_witness :
  0 < 2 /\
  exists t l,
    calculate_efficiencies_comb
      Sample.h_lin Sample.s_air Sample.np_log Sample.hybrd 2
      = (t, inr (Comb.eta_brayton l, Comb.eta_combined l, Comb.T4_real l)) /\
    Sample.h_lin (Comb.T4_real l) == Comb.h4 l /\
    Comb.eta_brayton l = (Comb.w_net_brayton l / Comb.q_in_brayton l) * 100.
Proof.
  split; [reflexivity|].
  destruct (combined_evaluator_percent
              Sample.h_lin Sample.s_air Sample.np_log Sample.hybrd 2)
    as (t & l & E & E' & ET & Hroot & Eb & _);
    [reflexivity | evaluate | evaluate | evaluate |].
  exists t, l. split; [exact E'|]. split; [|exact Eb].
  apply Hroot. rewrite ET.
  remember (calculate_efficiencies_comb_locals
              Sample.h_lin Sample.s_air Sample.np_log Sample.hybrd 2)
    as m eqn:Em.
  vm_compute in Em. subst m. injection E as _ <-. evaluate.
Defined.

(** Entropy capped above 600 K, ratio 2: the turbine-side target lies at
    520 K, the seed 974.7 K sits on the flat part, and the solver gives up
    there (status 5) with a residual that is not zero.  The caller still
    gets a number; the only trace of the failure is the warning. *)
Lemma unconverged_guess_is_returned :
  res_status
    (brayton_res4 Sample.s_capped Sample.np_log Sample.pow Sample.hybrd 2)
    = 5%Z /\
  ~ s_diff_turb Sample.s_capped Sample.np_log (Sample.s_capped T3) 2
      (res_x (brayton_res4 Sample.s_capped Sample.np_log Sample.pow
                Sample.hybrd 2)) == 0 /\
  exists t v,
    thermal_efficiency
      Sample.h_lin Sample.s_capped Sample.np_log Sample.pow Sample.hybrd 2
      = (t, inr v) /\
    In (RuntimeWarning "The iteration is not making good progress.") t /\
    forall text, ~ In (Printed text) t.
Proof.
  split; [evaluate|]. split; [vm_compute; discriminate|].
  remember (thermal_efficiency
              Sample.h_lin Sample.s_capped Sample.np_log Sample.pow
              Sample.hybrd 2) as m eqn:E.
  vm_compute in E. subst m.
  eexists. eexists. split; [reflexivity|]. split.
  - right. right. left. reflexivity.
  - intros text [H | [H | [H | []]]]; discriminate.
Qed.

Lemma unconverged_solve_only_warns_witness :
  0 < 2 /\
  exists l,
    thermal_efficiency_locals
      Sample.h_lin Sample.s_capped Sample.np_log Sample.pow Sample.hybrd 2
      = ([Fsolve (T1 * Sample.pow 2 0.3);
          Fsolve (T3 / Sample.pow 2 0.3);
          RuntimeWarning "The iteration is not making good progress."],
         inr l) /\
    Brayton.T4s l = T3 / Sample.pow 2 0.3.
Proof.
  split; [reflexivity|].
  destruct (unconverged_solve_only_warns
              Sample.h_lin Sample.s_capped Sample.np_log Sample.pow
              Sample.hybrd 2)
    as [(l & E & _ & _ & E4) _];
    [reflexivity | evaluate | evaluate | evaluate | evaluate | evaluate |].
  exists l. split.
  - rewrite E. reflexivity.
  - rewrite E4. reflexivity.
Defined.

(** Ratio 1 and efficiencies of 1.5 are taken as they come: the solver is
    entered and a figure comes back. *)
Lemma invalid_parameters_are_evaluated :
  1 <= 1 /\ ~ (1.5 <= 1) /\
  (exists t v,
     thermal_efficiency
       Sample.h_lin Sample.s_air Sample.np_log Sample.pow Sample.hybrd 1
       = (Fsolve (T1 * Sample.pow 1 0.3) :: t, inr v)) /\
  (exists t v,
     thermal_efficiency_sens
       Sample.h_lin Sample.s_air Sample.np_log Sample.pow Sample.hybrd
       1 1.5 1.5
       = (Fsolve (T1 * Sample.pow 1 0.3) :: t, inr v)).
Proof.
  split; [discriminate|]. split; [intros H; apply H; reflexivity|]. split.
  - remember (thermal_efficiency
                Sample.h_lin Sample.s_air Sample.np_log Sample.pow
                Sample.hybrd 1) as m eqn:E.
    vm_compute in E. subst m. eexists. eexists. reflexivity.
  - remember (thermal_efficiency_sens
                Sample.h_lin Sample.s_air Sample.np_log Sample.pow
                Sample.hybrd 1 1.5 1.5) as m eqn:E.
    vm_compute in E. subst m. eexists. eexists. reflexivity.
Qed.

Lemma no_parameter_validation_witness :
  0 < 1 /\
  exists t o,
    thermal_efficiency_sens
      Sample.h_lin Sample.s_air Sample.np_log Sample.pow Sample.hybrd
      1 1.5 1.5
      = (Fsolve (T1 * Sample.pow 1 0.3) :: t, o) /\
    forall e, o = inl e -> exn_cls e = TypeError.
Proof.
  split; [reflexivity|].
  destruct (no_parameter_validation
              Sample.h_lin Sample.s_air Sample.np_log Sample.pow Sample.hybrd
              1 1.5 1.5) as [H _]; [reflexivity|].
  exact H.
Defined.

(** Ratio 150 on the sample air, efficiencies 0.90: the compressor outlet
    is hotter than the turbine inlet, the heat input is negative (and so is
    the net work), and the evaluator returns their quotient, 1.31. *)
Lemma negative_heat_input_is_returned :
  1 < 150 /\ (0 < eta_c /\ eta_c <= 1) /\ (0 < eta_t /\ eta_t <= 1) /\
  exists t l,
    thermal_efficiency_locals
      Sample.h_lin Sample.s_air Sample.np_log Sample.pow Sample.hybrd 150
      = (t, inr l) /\
    Sample.s_air (Brayton.T2s l)
      == Sample.s_air T1 + R * Sample.np_log 150 /\
    Sample.s_air (Brayton.T4s l)
      == Sample.s_air T3 - R * Sample.np_log 150 /\
    Brayton.q_in l < 0 /\
    Brayton.w_net l < 0 /\
    thermal_efficiency
      Sample.h_lin Sample.s_air Sample.np_log Sample.pow Sample.hybrd 150
      = (t, inr (Brayton.w_net l / Brayton.q_in l)) /\
    1 < Brayton.w_net l / Brayton.q_in l.
Proof.
  split; [reflexivity|].
  split; [split; [reflexivity | discriminate]|].
  split; [split; [reflexivity | discriminate]|].
  unfold thermal_efficiency.
  remember (thermal_efficiency_locals
              Sample.h_lin Sample.s_air Sample.np_log Sample.pow
              Sample.hybrd 150) as m eqn:E.
  vm_compute in E. subst m.
  eexists. eexists. split; [reflexivity|].
  split; [evaluate|]. split; [evaluate|].
  split; [evaluate|]. split; [evaluate|]. split; [reflexivity|].
  evaluate.
Qed.

Lemma heat_input_unchecked_witness :
  (0 < 150 /\ 0 < 0.90) /\
  exists t l,
    thermal_efficiency
      Sample.h_lin Sample.s_air Sample.np_log Sample.pow Sample.hybrd 150
      = (t, inr (Brayton.w_net l / Brayton.q_in l)) /\
    ~ Brayton.h2s l - Brayton.h1 l < 0.90 * (Brayton.h3 l - Brayton.h1 l).
Proof.
  split; [split; reflexivity|].
  destruct (heat_input_unchecked
              Sample.h_lin Sample.s_air Sample.np_log Sample.pow Sample.hybrd
              150 0.90 0.90) as [_ (t & l & E & E' & Hq)];
    [reflexivity | reflexivity | evaluate | evaluate |].
  exists t, l. split; [exact E'|].
  intros H. apply Hq in H. revert H.
  remember (thermal_efficiency_locals
              Sample.h_lin Sample.s_air Sample.np_log Sample.pow
              Sample.hybrd 150) as m eqn:Em.
  vm_compute in Em. subst m. injection E as _ <-.
  vm_compute. discriminate.
Defined.

(** Entropy with a knee at 1150 K, ratio 2: the exhaust is at 1182 K, so
    the bottoming cycle runs, while the heat input is negative; adding the
    bottoming work lowers the reported efficiency. *)
Lemma bottoming_cycle_can_reduce :
  exists t l,
    calculate_efficiencies_comb_locals
      Sample.h_lin Sample.s_knee Sample.np_log Sample.hybrd 2 = (t, inr l) /\
    Sample.s_knee (Comb.T2s l) == Sample.s_knee T1 + R * Sample.np_log 2 /\
    Sample.s_knee (Comb.T4s l) == Sample.s_knee T3 - R * Sample.np_log 2 /\
    Sample.h_lin (Comb.T4_real l) == Comb.h4 l /\
    T4_limit <= Comb.T4_real l /\
    Comb.q_in_brayton l < 0 /\
    Comb.eta_combined l < Comb.eta_brayton l.
Proof.
  remember (calculate_efficiencies_comb_locals
              Sample.h_lin Sample.s_knee Sample.np_log Sample.hybrd 2)
    as m eqn:E.
  vm_compute in E. subst m.
  eexists. eexists. split; [reflexivity|].
  split; [evaluate|]. split; [evaluate|]. split; [evaluate|].
  split; [vm_compute; discriminate|].
  split; evaluate.
Qed.

Lemma bottoming_cycle_gain_witness :
  0 < 2 /\
  exists t l,
    calculate_efficiencies_comb_locals
      Sample.h_lin Sample.s_air Sample.np_log Sample.hybrd 2 = (t, inr l) /\
    0 < Comb.q_in_brayton l /\
    Comb.eta_brayton l <= Comb.eta_combined l.
Proof.
  split; [reflexivity|].
  destruct (bottoming_cycle_gain
              Sample.h_lin Sample.s_air Sample.np_log Sample.hybrd 2)
    as (t & l & E & _ & Hge & _);
    [reflexivity | evaluate | evaluate | evaluate |].
  exists t, l. split; [exact E|].
  assert (Hq : 0 < Comb.q_in_brayton l).
  { remember (calculate_efficiencies_comb_locals
                Sample.h_lin Sample.s_air Sample.np_log Sample.hybrd 2)
      as m eqn:Em.
    vm_compute in Em. subst m. injection E as _ <-. evaluate. }
  split; [exact Hq | exact (Hge Hq)].
Defined.

(** Ratios 1, 2, 150, 2 on the sample air: the net works are 0, 90.6,
    -253.1 and 90.6; the sweep reports the first 90.6, at index 1. *)
Lemma sweep_optimum_witness :
  [1; 2; 150; 2] <> [] /\
  exists t ws w_max,
    net_work_sweep
      Sample.h_lin Sample.s_air Sample.np_log Sample.pow Sample.hybrd
      [1; 2; 150; 2] = (t, inr (SweepResult ws w_max 2)) /\
    List.length ws = 4%nat /\
    nth_error ws 1 = Some w_max /\
    nth_error ws 3 = Some w_max /\
    forall j w, nth_error ws j = Some w -> w <= w_max.
Proof.
  split; [discriminate|].
  destruct (sweep_optimum
              Sample.h_lin Sample.s_air Sample.np_log Sample.pow Sample.hybrd
              [1; 2; 150; 2])
    as (t & ws & i & w_max & r_at & E & Hlen & Hsample & E' & Hi & Hr & _
        & Hmax & Hfirst).
  - discriminate.
  - intros r [<- | [<- | [<- | [<- | []]]]];
      (split; [reflexivity | split; evaluate]).
  - remember (net_work_sweep
                Sample.h_lin Sample.s_air Sample.np_log Sample.pow
                Sample.hybrd [1; 2; 150; 2]) as m eqn:Em.
    vm_compute in Em. subst m. injection E' as <- <- <- <-.
    eexists. eexists. eexists. split; [reflexivity|].
    split; [reflexivity|].
    split; [reflexivity|]. split; [reflexivity|]. exact Hmax.
Defined.

Lemma load_data_swallows_errors_witness :
  Sample.no_file "data/AirDataSonntag.txt"
    = inl (PyExn FileNotFoundError "[Errno 2] No such file or directory") /\
  load_data Sample.no_file re_findall_numbers py_float
    "data/AirDataSonntag.txt"
    = ([Printed "Error: data/AirDataSonntag.txt not found. Please ensure it is in the data/ folder."],
       inr (np_zeros 10 6)) /\
  load_data Sample.bad_file re_findall_numbers py_float
    "data/AirDataSonntag.txt"
    = ([Printed "An error occurred loading data: invalid start byte"],
       inr (np_zeros 10 6)) /\
  exists msg,
    interpolants Sample.bad_file (fun _ => true) re_findall_numbers py_float
      Sample.make_interp_spline
    = ([Printed "An error occurred loading data: invalid start byte";
        Printed "WARNING: Data loaded is empty. Check AirDataSonntag.txt file."],
       inl (PyExn ValueError msg)).
Proof.
  split; [reflexivity|]. split; [| split].
  - apply (load_data_swallows_errors Sample.no_file (fun _ => true)
             re_findall_numbers py_float Sample.make_interp_spline
             "data/AirDataSonntag.txt"
             (PyExn FileNotFoundError "[Errno 2] No such file or directory")).
    reflexivity.
  - apply (load_data_swallows_errors Sample.bad_file (fun _ => true)
             re_findall_numbers py_float Sample.make_interp_spline
             "data/AirDataSonntag.txt"
             (PyExn UnicodeDecodeError "invalid start byte")).
    reflexivity.
  - apply (load_data_swallows_errors Sample.bad_file (fun _ => true)
             re_findall_numbers py_float Sample.make_interp_spline
             "data/AirDataSonntag.txt"
             (PyExn UnicodeDecodeError "invalid start byte")).
    + reflexivity.
    + reflexivity.
Defined.

(** Without the property table [load_data] returns the matrix of zeros, and
    the run ends at the first [interp1d]: the message of [load_data] and the
    warning are printed, then [ValueError] is raised; no interpolant is
    built and no cycle is evaluated. *)
Lemma zero_table_stops_the_run :
  Sample.no_file "data/AirDataSonntag.txt"
    = inl (PyExn FileNotFoundError "[Errno 2] No such file or directory") /\
  load_data Sample.no_file re_findall_numbers py_float
    "data/AirDataSonntag.txt"
    = ([Printed "Error: data/AirDataSonntag.txt not found. Please ensure it is in the data/ folder."],
       inr (np_zeros 10 6)) /\
  exists msg,
    interpolants Sample.no_file (fun _ => true) re_findall_numbers py_float
      Sample.make_interp_spline
    = ([Printed "Error: data/AirDataSonntag.txt not found. Please ensure it is in the data/ folder.";
        Printed "WARNING: Data loaded is empty. Check AirDataSonntag.txt file."],
       inl (PyExn ValueError msg)).
Proof.
  split; [reflexivity|]. split; [reflexivity|].
  exists "Expect x to not have duplicates"%string. vm_compute. reflexivity.
Qed.

(** * The number pattern *)

Lemma append_nil_r (s : string) : (s ++ "")%string = s.
Proof. induction s as [| c s IH]; cbn; [reflexivity | rewrite IH; reflexivity]. Qed.

Lemma append_assoc (a b c : string) :
  ((a ++ b) ++ c)%string = (a ++ b ++ c)%string.
Proof. induction a as [| x a IH]; cbn; [reflexivity | rewrite IH; reflexivity]. Qed.

Lemma length_append (a b : string) :
  String.length (a ++ b) = (String.length a + String.length b)%nat.
Proof. induction a as [| x a IH]; cbn; [reflexivity | rewrite IH; reflexivity]. Qed.

Lemma keep_append (p : ascii -> bool) (a b : string) :
  keep p (a ++ b) = (keep p a ++ keep p b)%string.
Proof.
  induction a as [| x a IH]; cbn; [reflexivity|].
  destruct (p x); cbn; rewrite IH; reflexivity.
Qed.

Lemma all_chars_append (p : ascii -> bool) (a b : string) :
  all_chars p (a ++ b) = all_chars p a && all_chars p b.
Proof.
  induction a as [| x a IH]; cbn; [reflexivity|].
  rewrite IH. apply andb_assoc.
Qed.

Lemma digits_spec (s d r : string) :
  digits s = (d, r) ->
  s = (d ++ r)%string /\ all_chars is_digit d = true /\ starts_without_digit r.
Proof.
  revert d r. induction s as [| c s IH]; intros d r E; cbn in E.
  - injection E as <- <-. cbn. auto.
  - destruct (is_digit c) eqn:Hc.
    + destruct (digits s) as [d' r'] eqn:E'. injection E as <- <-.
      destruct (IH d' r' eq_refl) as (-> & Hd & Hr).
      cbn. rewrite Hc. auto.
    + injection E as <- <-. cbn. auto.
Qed.

Lemma digits_append (d r : string) :
  all_chars is_digit d = true -> starts_without_digit r ->
  digits (d ++ r) = (d, r).
Proof.
  intros Hd Hr. induction d as [| c d IH]; cbn in *.
  - destruct r as [| c r]; cbn in *; [reflexivity | rewrite Hr; reflexivity].
  - apply andb_true_iff in Hd as [Hc Hd]. rewrite Hc, (IH Hd). reflexivity.
Qed.

Lemma sign_of_spec (s sign body : string) :
  sign_of s = (sign, body) ->
  s = (sign ++ body)%string /\
  (sign = "" \/ exists c, is_sign c = true /\ sign = String c "") /\
  (sign = "" -> match s with
                | String c _ => is_sign c = false
                | EmptyString => True
                end).
Proof.
  unfold sign_of. destruct s as [| c s]; intros E.
  - injection E as <- <-. auto.
  - destruct (is_sign c) eqn:Hc; injection E as <- <-.
    + split; [reflexivity|]. split; [right; eauto | discriminate].
    + auto.
Qed.

Lemma sign_digit_disjoint (c : ascii) : is_sign c = true -> is_digit c = false.
Proof.
  unfold is_sign. intros H. apply orb_true_iff in H.
  destruct H as [H | H]; apply Ascii.eqb_eq in H; subst c; reflexivity.
Qed.

Lemma dot_not_digit (c : ascii) : is_dot c = true -> is_digit c = false.
Proof.
  unfold is_dot. intros H. apply Ascii.eqb_eq in H. subst c. reflexivity.
Qed.

Lemma dot_not_sign (c : ascii) : is_dot c = true -> is_sign c = false.
Proof.
  unfold is_dot. intros H. apply Ascii.eqb_eq in H. subst c. reflexivity.
Qed.

Lemma is_empty_false (s : string) : is_empty s = false -> s <> "".
Proof. destruct s; [discriminate | intros _; discriminate]. Qed.

(** A literal, taken apart. *)
Lemma is_number_literal_shape (s : string) :
  is_number_literal s = true ->
  exists sign ds,
    sign_of s = (sign, snd (sign_of s)) /\
    all_chars is_digit ds = true /\
    ((s = (sign ++ ds)%string /\ is_empty ds = false) \/
     (exists c fs, is_dot c = true /\ is_empty fs = false /\
                   all_chars is_digit fs = true /\
                   s = (sign ++ ds ++ String c fs)%string)).
Proof.
  unfold is_number_literal. intros H.
  destruct (sign_of s) as [sign body] eqn:Es. cbn [snd] in *.
  destruct (digits body) as [ds r] eqn:Ed.
  destruct (sign_of_spec _ _ _ Es) as (-> & _ & _).
  destruct (digits_spec _ _ _ Ed) as (-> & Hds & _).
  exists sign, ds. split; [reflexivity|]. split; [exact Hds|].
  destruct r as [| c fs].
  - left. rewrite append_nil_r. split; [reflexivity|].
    destruct ds; [discriminate | reflexivity].
  - right. apply andb_true_iff in H as [H Hfs].
    apply andb_true_iff in H as [Hc Hne].
    exists c, fs. repeat split; try assumption.
    destruct fs; [discriminate | reflexivity].
Qed.

Lemma match_number_spec (s tok rest : string) :
  match_number s = Some (tok, rest) ->
  s = (tok ++ rest)%string /\ is_number_literal tok = true /\
  exists c tok', tok = String c tok'.
Proof.
  unfold match_number. intros H.
  destruct (sign_of s) as [sign s1] eqn:Es.
  destruct (digits s1) as [ds s2] eqn:Ed.
  destruct (sign_of_spec _ _ _ Es) as (Hs & Hsign & Hnosign).
  destruct (digits_spec _ _ _ Ed) as (Hs1 & Hds & Hs2).
  assert (Hsign_of : forall body, body <> "" ->
            (sign = "" -> match body with
                          | String c _ => is_sign c = false
                          | EmptyString => True
                          end) ->
            sign_of (sign ++ body) = (sign, body)).
  { intros body Hbody Hfirst. destruct Hsign as [-> | (c & Hc & ->)].
    - cbn. destruct body as [| c body]; [congruence|].
      cbn. rewrite (Hfirst eq_refl). reflexivity.
    - cbn. rewrite Hc. reflexivity. }
  assert (Hfirst : sign = "" ->
            match (ds ++ s2)%string with
            | String c _ => is_sign c = false
            | EmptyString => True
            end).
  { intros E. specialize (Hnosign E). rewrite Hs, E, Hs1 in Hnosign.
    exact Hnosign. }
  assert (Hsecond :
            (if is_empty ds then None else Some ((sign ++ ds)%string, s2))
              = Some (tok, rest) ->
            s = (tok ++ rest)%string /\ is_number_literal tok = true /\
            exists c tok', tok = String c tok').
  { intros H2. destruct ds as [| d ds]; [discriminate|].
    injection H2 as <- <-. split.
    { rewrite Hs, Hs1, append_assoc. reflexivity. }
    split.
    - unfold is_number_literal. rewrite Hsign_of.
      + cbn [snd].
        rewrite <- (append_nil_r (String d ds)).
        rewrite (digits_append _ "" Hds I). reflexivity.
      + discriminate.
      + intros E. specialize (Hfirst E). exact Hfirst.
    - destruct Hsign as [-> | (c & _ & ->)]; cbn; eauto. }
  destruct s2 as [| c s3]; [exact (Hsecond H)|].
  destruct (is_dot c) eqn:Hc; [| exact (Hsecond H)].
  destruct (digits s3) as [fs s4] eqn:Ef.
  destruct (digits_spec _ _ _ Ef) as (Hs3 & Hfs & Hs4).
  destruct (is_empty fs) eqn:Hne; [exact (Hsecond H)|].
  injection H as <- <-. split.
  { rewrite Hs, Hs1, Hs3, !append_assoc. cbn. rewrite ?append_assoc.
    reflexivity. }
  split.
  - unfold is_number_literal. rewrite Hsign_of.
    + cbn [snd].
      rewrite (digits_append ds (String c fs) Hds (dot_not_digit c Hc)).
      rewrite Hc, Hne, Hfs. reflexivity.
    + destruct ds; discriminate.
    + intros E. specialize (Hfirst E).
      destruct ds as [| d ds]; cbn in *; [apply dot_not_sign; exact Hc|].
      exact Hfirst.
  - destruct Hsign as [-> | (c' & _ & ->)]; cbn.
    + destruct ds; cbn; eauto.
    + eauto.
Qed.

Lemma match_number_none (c : ascii) (s : string) :
  match_number (String c s) = None -> is_digit c = false.
Proof.
  unfold match_number, sign_of. intros H.
  destruct (is_sign c) eqn:Hs; [apply sign_digit_disjoint; exact Hs|].
  cbn [digits] in H. destruct (is_digit c) eqn:Hd; [| reflexivity].
  exfalso. destruct (digits s) as [d r]. cbn [is_empty] in H.
  destruct r as [| c' r]; [discriminate|].
  destruct (is_dot c'); [| discriminate].
  destruct (digits r) as [fs s4]. destruct (is_empty fs); discriminate.
Qed.

Lemma findall_skip_prefix (pre s : string) :
  findall_skip (String.length pre) (pre ++ s) = findall_skip 0 s.
Proof. induction pre as [| c pre IH]; cbn; [reflexivity | exact IH]. Qed.

(** The scan, one match at a time. *)
Lemma findall_match (s tok rest : string) :
  match_number s = Some (tok, rest) ->
  findall_skip 0 s = tok :: findall_skip 0 rest.
Proof.
  intros H. destruct (match_number_spec _ _ _ H) as (Hs & _ & c & tok' & ->).
  subst s. cbn [append findall_skip]. cbn [append] in H. rewrite H.
  replace (String.length (String c tok') - 1)%nat with (String.length tok')
    by (cbn; lia).
  rewrite findall_skip_prefix. reflexivity.
Qed.

Lemma findall_no_match (c : ascii) (s : string) :
  match_number (String c s) = None ->
  findall_skip 0 (String c s) = findall_skip 0 s.
Proof. intros H. cbn [findall_skip]. rewrite H. reflexivity. Qed.

(** Induction along the scan. *)
Lemma findall_ind (P : string -> list string -> Prop) :
  P "" [] ->
  (forall c s, match_number (String c s) = None ->
               P s (findall_skip 0 s) ->
               P (String c s) (findall_skip 0 s)) ->
  (forall tok rest, match_number (tok ++ rest) = Some (tok, rest) ->
                    P rest (findall_skip 0 rest) ->
                    P (tok ++ rest)%string (tok :: findall_skip 0 rest)) ->
  forall s, P s (findall_skip 0 s).
Proof.
  intros Hnil Hskip Hmatch s.
  remember (String.length s) as n eqn:Hn.
  revert s Hn. induction n as [n IH] using lt_wf_ind. intros s Hn.
  destruct s as [| c s]; [exact Hnil|].
  destruct (match_number (String c s)) as [[tok rest] |] eqn:E.
  - rewrite (findall_match _ _ _ E).
    destruct (match_number_spec _ _ _ E) as (Hs & _ & c' & tok' & Htok).
    rewrite Hs in *. apply Hmatch; [exact E|].
    apply (IH (String.length rest)); [| reflexivity].
    subst n tok. rewrite length_append. cbn. lia.
  - rewrite (findall_no_match _ _ E). apply Hskip; [exact E|].
    apply (IH (String.length s)); [| reflexivity]. subst n. cbn. lia.
Qed.

Lemma literal_floats (s : string) :
  is_number_literal s = true -> exists q, float_literal s = Some q.
Proof.
  unfold is_number_literal, float_literal. intros H.
  destruct (sign_of s) as [sign body]. cbn [snd] in H.
  destruct (digits body) as [ds r].
  destruct r as [| c fs].
  - destruct (is_empty ds); [discriminate | eauto].
  - apply andb_true_iff in H as [H Hfs].
    apply andb_true_iff in H as [Hc Hne].
    rewrite Hc, Hfs. destruct (is_empty fs); [discriminate|].
    rewrite andb_false_r. cbn. eauto.
Qed.

Lemma literal_has_digit (s : string) :
  is_number_literal s = true -> keep is_digit s <> "".
Proof.
  intros H.
  destruct (is_number_literal_shape s H)
    as (sign & ds & _ & Hds & [(-> & Hne) | (c & fs & Hc & Hne & Hfs & ->)]).
  - rewrite keep_append. destruct ds as [| d ds]; [discriminate|].
    cbn in Hds. apply andb_true_iff in Hds as [Hd _].
    cbn. rewrite Hd. destruct (keep is_digit sign); discriminate.
  - rewrite !keep_append. destruct fs as [| f fs]; [discriminate|].
    cbn in Hfs. apply andb_true_iff in Hfs as [Hf _].
    cbn. rewrite (dot_not_digit c Hc), Hf.
    destruct (keep is_digit sign); destruct (keep is_digit ds); discriminate.
Qed.

Lemma concat_cons (tok : string) (toks : list string) :
  String.concat "" (tok :: toks) = (tok ++ String.concat "" toks)%string.
Proof.
  destruct toks as [| t toks]; cbn; [rewrite append_nil_r|]; reflexivity.
Qed.

(** X4.  Every match of the pattern is a literal, and [float] reads it: the
    list comprehension of [load_data] cannot raise [ValueError]. *)
Theorem matches_are_literals (content tok : string) :
  In tok (re_findall_numbers content) ->
  is_number_literal tok = true /\
  exists q, float_literal tok = Some q /\ py_float tok = q.
Proof.
  unfold re_findall_numbers. revert tok.
  apply (findall_ind
           (fun _ toks => forall tok, In tok toks ->
              is_number_literal tok = true /\
              exists q, float_literal tok = Some q /\ py_float tok = q)).
  - intros tok [].
  - intros c s _ IH. exact IH.
  - intros tok rest E IH tok' [<- | Hin]; [| apply IH; exact Hin].
    destruct (match_number_spec _ _ _ E) as (_ & Hlit & _).
    split; [exact Hlit|].
    destruct (literal_floats tok Hlit) as (q & Hq).
    exists q. split; [exact Hq|]. unfold py_float. rewrite Hq. reflexivity.
Qed.

(** X5.  Only characters that are not digits are ever passed over: the digits
    of the text are the digits of the matches, in the same order.  A text
    without digits has no match. *)
Theorem no_digit_is_lost (content : string) :
  keep is_digit content
    = keep is_digit (String.concat "" (re_findall_numbers content)) /\
  (keep is_digit content = "" -> re_findall_numbers content = []).
Proof.
  unfold re_findall_numbers.
  apply (findall_ind
           (fun s toks =>
              keep is_digit s = keep is_digit (String.concat "" toks) /\
              (keep is_digit s = "" -> toks = []))).
  - split; reflexivity.
  - intros c s E [IH1 IH2]. cbn [keep].
    rewrite (match_number_none c s E). auto.
  - intros tok rest E [IH1 IH2].
    destruct (match_number_spec _ _ _ E) as (_ & Hlit & _).
    rewrite concat_cons, !keep_append, IH1. split; [reflexivity|].
    intros H. exfalso. apply (literal_has_digit tok Hlit).
    destruct (keep is_digit tok); [reflexivity | discriminate].
Qed.

Lemma is_blank_spec (c : ascii) :
  is_blank c = true ->
  is_digit c = false /\ is_sign c = false /\ is_dot c = false.
Proof.
  unfold is_blank. intros H. apply negb_true_iff in H.
  apply orb_false_iff in H as [H Hdot].
  apply orb_false_iff in H as [Hd Hs]. auto.
Qed.

Lemma blank_no_match (c : ascii) (s : string) :
  is_blank c = true -> match_number (String c s) = None.
Proof.
  intros H. destruct (is_blank_spec c H) as (Hd & Hs & Hdot).
  unfold match_number, sign_of. rewrite Hs. cbn [digits]. rewrite Hd.
  cbn. rewrite Hdot. reflexivity.
Qed.

Lemma skip_blanks (pre s : string) :
  all_chars is_blank pre = true ->
  findall_skip 0 (pre ++ s) = findall_skip 0 s.
Proof.
  induction pre as [| c pre IH]; cbn [append all_chars]; intros H.
  - reflexivity.
  - apply andb_true_iff in H as [Hc Hpre].
    rewrite (findall_no_match c _ (blank_no_match c _ Hc)). apply IH, Hpre.
Qed.

Lemma match_literal (lit rest : string) :
  is_number_literal lit = true -> starts_blank rest ->
  match_number (lit ++ rest) = Some (lit, rest).
Proof.
  intros Hlit Hrest.
  assert (Hnd : starts_without_digit rest).
  { destruct rest as [| c rest]; cbn in *; [exact I|].
    apply (is_blank_spec c Hrest). }
  assert (Hndot : match rest with
                  | String c _ => is_dot c = false
                  | EmptyString => True
                  end).
  { destruct rest as [| c rest]; cbn in *; [exact I|].
    apply (is_blank_spec c Hrest). }
  unfold is_number_literal in Hlit. unfold match_number.
  destruct (sign_of lit) as [sign body] eqn:Es. cbn [snd] in Hlit.
  destruct (digits body) as [ds r] eqn:Ed.
  destruct (sign_of_spec _ _ _ Es) as (-> & Hsign & Hnosign).
  destruct (digits_spec _ _ _ Ed) as (-> & Hds & Hr).
  assert (Hbody : (ds ++ r)%string <> "").
  { destruct ds; [| discriminate]. destruct r; [discriminate|]. discriminate. }
  assert (Esign : sign_of ((sign ++ ds ++ r) ++ rest)
                  = (sign, ((ds ++ r) ++ rest)%string)).
  { destruct Hsign as [-> | (c & Hc & ->)].
    - cbn [append]. specialize (Hnosign eq_refl). cbn [append] in Hnosign.
      destruct (ds ++ r)%string as [| c b]; [congruence|].
      cbn. rewrite Hnosign. reflexivity.
    - cbn. rewrite Hc. reflexivity. }
  rewrite Esign. rewrite append_assoc.
  destruct r as [| c fs].
  - cbn [append]. rewrite (digits_append ds rest Hds Hnd).
    rewrite !append_nil_r.
    destruct ds as [| d ds]; [discriminate|]. cbn [is_empty].
    destruct rest as [| c rest]; [reflexivity|].
    cbn in Hndot. rewrite Hndot. reflexivity.
  - apply andb_true_iff in Hlit as [H Hfs].
    apply andb_true_iff in H as [Hc Hne].
    cbn [append].
    rewrite (digits_append ds (String c (fs ++ rest)) Hds
               (dot_not_digit c Hc)).
    rewrite Hc, (digits_append fs rest Hfs Hnd).
    destruct fs as [| f fs]; [discriminate|]. cbn [is_empty].
    rewrite ?append_assoc. cbn [append]. rewrite ?append_assoc.
    reflexivity.
Qed.

(** Reading back a table written as literals and separators. *)
Lemma findall_table (header : string) (cells : list (string * string)) :
  all_chars is_blank header = true ->
  well_formed_table cells = true ->
  re_findall_numbers (header ++ table_text cells) = map fst cells.
Proof.
  intros Hheader Hcells. unfold re_findall_numbers.
  rewrite (skip_blanks _ _ Hheader). clear header Hheader.
  induction cells as [| [lit sep] cells IH]; [reflexivity|].
  cbn [well_formed_table] in Hcells.
  apply andb_true_iff in Hcells as [H Hrest].
  apply andb_true_iff in H as [H Hlast].
  apply andb_true_iff in H as [Hlit Hsep].
  cbn [table_text map fst].
  assert (Hstart : starts_blank (sep ++ table_text cells)).
  { destruct sep as [| c sep]; cbn in *.
    - destruct cells; [exact I | discriminate].
    - apply andb_true_iff in Hsep as [Hc _]. exact Hc. }
  rewrite (findall_match _ _ _ (match_literal _ _ Hlit Hstart)).
  rewrite (skip_blanks _ _ Hsep), (IH Hrest). reflexivity.
Qed.

(** X6.  Round trip of the number pattern: a header without digits, signs and
    dots, then literals kept apart by such characters, is read back as
    exactly these literals, in order. *)
Theorem table_is_read_back (header : string) (cells : list (string * string)) :
  all_chars is_blank header = true ->
  well_formed_table cells = true ->
  re_findall_numbers (header ++ table_text cells) = map fst cells /\
  Forall (fun lit => exists q, float_literal lit = Some q) (map fst cells).
Proof.
  intros Hheader Hcells. split; [apply findall_table; assumption|].
  clear header Hheader.
  induction cells as [| [lit sep] cells IH]; [constructor|].
  cbn [well_formed_table] in Hcells.
  apply andb_true_iff in Hcells as [H Hrest].
  apply andb_true_iff in H as [H _].
  apply andb_true_iff in H as [Hlit _].
  constructor; [apply literal_floats; exact Hlit | apply IH; exact Hrest].
Qed.

(** X7.  A well-formed table of [6 * k] literals is loaded as the [k] rows of
    their values. *)
Theorem well_formed_table_is_loaded
  (open_read : string -> exn + string) (filename header : string)
  (cells : list (string * string)) (k : nat) :
  open_read filename = inr (header ++ table_text cells)%string ->
  all_chars is_blank header = true ->
  well_formed_table cells = true ->
  List.length cells = (6 * k)%nat ->
  load_data open_read re_findall_numbers py_float filename =
    ([], inr (reshape k 6 (map py_float (map fst cells)))) /\
  List.length (reshape k 6 (map py_float (map fst cells))) = k /\
  List.concat (reshape k 6 (map py_float (map fst cells)))
    = map py_float (map fst cells).
Proof.
  intros Hread Hheader Hcells Hlen.
  assert (Hn : List.length (map py_float (map fst cells)) = (k * 6)%nat)
    by (rewrite !length_map; lia).
  split.
  - unfold load_data, read_file. rewrite Hread. cbn [bind try_except ret].
    rewrite (findall_table _ _ Hheader Hcells).
    rewrite Hn. rewrite Nat.div_mul by discriminate.
    rewrite firstn_all2 by lia. reflexivity.
  - split; [apply reshape_length|].
    rewrite reshape_concat by lia. apply firstn_all2. lia.
Qed.

(** * The sampled ratios *)

Lemma linspace_nth (start stop : Q) (num i : nat) :
  (i < num)%nat ->
  nth_error (linspace start stop num) i =
    Some (start + inject_Z (Z.of_nat i)
                  * ((stop - start) / inject_Z (Z.of_nat (num - 1)))).
Proof.
  intros Hi. unfold linspace. rewrite nth_error_map, nth_error_seq.
  destruct (Nat.ltb_spec i num) as [_ | Hge]; [reflexivity | lia].
Qed.

(** X17.  [np.linspace(start, stop, num)] with at least two samples and
    [start < stop]: [num] samples, the first is [start], the last is
    [stop], they rise strictly, and all lie between the two ends. *)
Theorem linspace_samples (start stop : Q) (num : nat) :
  (2 <= num)%nat -> start < stop ->
  List.length (linspace start stop num) = num /\
  (exists first, nth_error (linspace start stop num) 0 = Some first /\
                 first == start) /\
  (exists last, nth_error (linspace start stop num) (num - 1) = Some last /\
                last == stop) /\
  (forall i j xi xj, (i < j)%nat ->
     nth_error (linspace start stop num) i = Some xi ->
     nth_error (linspace start stop num) j = Some xj -> xi < xj) /\
  (forall x, In x (linspace start stop num) -> start <= x /\ x <= stop).
Proof.
  intros Hnum Hlt.
  assert (Hn : 0 < inject_Z (Z.of_nat (num - 1))).
  { rewrite <- (Zlt_Qlt 0). lia. }
  assert (Hstep : 0 < (stop - start) / inject_Z (Z.of_nat (num - 1))).
  { apply Qlt_shift_div_l; [exact Hn | lra]. }
  assert (Hlast : inject_Z (Z.of_nat (num - 1))
                  * ((stop - start) / inject_Z (Z.of_nat (num - 1)))
                  == stop - start) by (field; lra).
  assert (Hlen : List.length (linspace start stop num) = num).
  { unfold linspace. rewrite length_map, length_seq. reflexivity. }
  assert (Hbound : forall i, (i < num)%nat ->
            0 <= inject_Z (Z.of_nat i)
            /\ inject_Z (Z.of_nat i) <= inject_Z (Z.of_nat (num - 1))).
  { intros i Hi. split.
    - rewrite <- (Zle_Qle 0). lia.
    - rewrite <- Zle_Qle. lia. }
  remember ((stop - start) / inject_Z (Z.of_nat (num - 1))) as step eqn:Es.
  split; [exact Hlen|]. split; [| split; [| split]].
  - eexists. split; [apply linspace_nth; lia|]. rewrite <- Es. cbn. ring.
  - eexists. split; [apply linspace_nth; lia|]. rewrite <- Es. lra.
  - intros i j xi xj Hij Hi Hj.
    assert (Hj' : (j < num)%nat).
    { rewrite <- Hlen. apply nth_error_Some. rewrite Hj. discriminate. }
    rewrite linspace_nth in Hi by lia. rewrite linspace_nth in Hj by lia.
    rewrite <- Es in Hi, Hj. injection Hi as <-. injection Hj as <-.
    assert (Hz : inject_Z (Z.of_nat i) < inject_Z (Z.of_nat j)).
    { rewrite <- Zlt_Qlt. lia. }
    nra.
  - intros x Hx. apply In_nth_error in Hx as (i & Hi).
    assert (Hi' : (i < num)%nat).
    { rewrite <- Hlen. apply nth_error_Some. rewrite Hi. discriminate. }
    rewrite linspace_nth in Hi by lia. rewrite <- Es in Hi.
    injection Hi as <-. destruct (Hbound i Hi') as [H0 H1].
    remember (inject_Z (Z.of_nat i)) as zi. 
    remember (inject_Z (Z.of_nat (num - 1))) as zn.
    split; nra.
Qed.

(** * Further properties on sample inputs *)

Lemma load_data_matrix_witness :
  exists m,
    load_data Sample.table_file re_findall_numbers py_float
      "data/AirDataSonntag.txt" = ([], inr m) /\
    List.length m = 2%nat /\
    Forall (fun row => List.length row = 6%nat) m.
Proof.
  destruct (load_data_matrix Sample.table_file re_findall_numbers py_float
              "data/AirDataSonntag.txt"
              (Sample.header ++ table_text Sample.cells)%string eq_refl)
    as (m & E & Hlen & Hrows & _).
  exists m. split; [exact E|]. split; [| exact Hrows].
  rewrite Hlen. vm_compute. reflexivity.
Defined.

Lemma short_file_gives_empty_matrix_witness :
  List.length (re_findall_numbers "Air, 1.5 to 2.5 bar, 3 columns") = 3%nat /\
  data Sample.short_file (fun _ => true) re_findall_numbers py_float =
    ([Printed
        "WARNING: Data loaded is empty. Check AirDataSonntag.txt file."],
     inr []).
Proof.
  split; [vm_compute; reflexivity|].
  apply (short_file_gives_empty_matrix Sample.short_file (fun _ => true)
           re_findall_numbers py_float "data/AirDataSonntag.txt"
           "Air, 1.5 to 2.5 bar, 3 columns").
  - reflexivity.
  - vm_compute. lia.
  - reflexivity.
Defined.

Lemma matches_are_literals_witness :
  re_findall_numbers "1.5e-3 12. +.5" = ["1.5"; "-3"; "12"; "+.5"] /\
  is_number_literal "-3" = true /\
  exists q, float_literal "-3" = Some q /\ py_float "-3" = q.
Proof.
  split; [vm_compute; reflexivity|].
  apply (matches_are_literals "1.5e-3 12. +.5" "-3").
  vm_compute. right. left. reflexivity.
Defined.

Lemma table_is_read_back_witness :
  re_findall_numbers (Sample.header ++ table_text Sample.cells)
    = map fst Sample.cells.
Proof.
  apply (table_is_read_back Sample.header Sample.cells);
    vm_compute; reflexivity.
Defined.

Lemma well_formed_table_is_loaded_witness :
  load_data Sample.table_file re_findall_numbers py_float
    "data/AirDataSonntag.txt"
  = ([], inr (reshape 2 6 (map py_float (map fst Sample.cells)))).
Proof.
  apply (well_formed_table_is_loaded Sample.table_file
           "data/AirDataSonntag.txt" Sample.header Sample.cells 2);
    vm_compute; reflexivity.
Defined.

Lemma energy_balance_witness :
  0 < 2 /\
  exists t l v,
    thermal_efficiency_sens
      Sample.h_lin Sample.s_air Sample.np_log Sample.pow Sample.hybrd
      2 0.90 0.90 = (t, inr v) /\
    thermal_efficiency_sens_locals
      Sample.h_lin Sample.s_air Sample.np_log Sample.pow Sample.hybrd
      2 0.90 0.90 = (t, inr l) /\
    Brayton.w_net l == Brayton.q_in l - (Brayton.h4 l - Brayton.h1 l).
Proof.
  split; [reflexivity|].
  destruct (energy_balance
              Sample.h_lin Sample.s_air Sample.np_log Sample.pow Sample.hybrd
              2 0.90 0.90) as (t & l & v & E & E' & Hw & _);
    [reflexivity | evaluate | evaluate |].
  exists t, l, v. auto.
Defined.

Lemma irreversibility_costs_work_witness :
  (0 < 2 /\ 0 < 0.86 /\ 0.86 <= 1) /\
  exists t l,
    thermal_efficiency_sens_locals
      Sample.h_lin Sample.s_air Sample.np_log Sample.pow Sample.hybrd
      2 0.86 0.86 = (t, inr l) /\
    (Brayton.h1 l <= Brayton.h2s l ->
     Brayton.h4s l <= Brayton.h3 l ->
     Brayton.w_net l <=
       (Brayton.h3 l - Brayton.h4s l) - (Brayton.h2s l - Brayton.h1 l)).
Proof.
  split; [repeat split; try reflexivity; discriminate|].
  destruct (irreversibility_costs_work
              Sample.h_lin Sample.s_air Sample.np_log Sample.pow Sample.hybrd
              2 0.86 0.86) as (t & l & E & _ & _ & Hw);
    [reflexivity | split; [reflexivity | discriminate]
     | split; [reflexivity | discriminate] | evaluate | evaluate |].
  exists t, l. auto.
Defined.

Lemma unit_efficiency_is_isentropic_witness :
  0 < 2 /\
  exists t l,
    thermal_efficiency_sens_locals
      Sample.h_lin Sample.s_air Sample.np_log Sample.pow Sample.hybrd
      2 1 1 = (t, inr l) /\
    Brayton.h2 l == Brayton.h2s l /\ Brayton.h4 l == Brayton.h4s l.
Proof.
  split; [reflexivity|].
  destruct (unit_efficiency_is_isentropic
              Sample.h_lin Sample.s_air Sample.np_log Sample.pow Sample.hybrd
              2) as (t & l & v & E & _ & E2 & E4 & _);
    [reflexivity | evaluate | evaluate |].
  exists t, l. auto.
Defined.

Lemma sample_entropy_injective (x y : Q) :
  Sample.s_air x == Sample.s_air y -> x == y.
Proof.
  intros H.
  destruct (Q_dec x y) as [[Hlt | Hgt] | Heq]; [| | exact Heq]; exfalso.
  - destruct (sample_entropies_increase x y Hlt) as [Hs _]. lra.
  - destruct (sample_entropies_increase y x Hgt) as [Hs _]. lra.
Qed.

Lemma sensitivity_is_increasing_witness :
  0 < 2 /\
  exists t values,
    sensitivity_loop
      Sample.h_lin Sample.s_air Sample.np_log Sample.pow Sample.hybrd
      2 isentropic_efficiencies [] = (t, inr values) /\
    List.length values = 5%nat /\
    (forall i j vi vj, (i < j)%nat ->
       nth_error values i = Some vi ->
       nth_error values j = Some vj -> vi < vj).
Proof.
  split; [reflexivity|].
  destruct (sensitivity_is_increasing
              Sample.h_lin Sample.s_air Sample.np_log Sample.pow Sample.hybrd
              2 isentropic_efficiencies)
    as (t & values & E & Hlen & Hinc).
  - reflexivity.
  - evaluate.
  - evaluate.
  - evaluate.
  - evaluate.
  - vm_compute. discriminate.
  - intros eta [<- | [<- | [<- | [<- | [<- | []]]]]];
      (split; [reflexivity | split; [discriminate | evaluate]]).
  - repeat (constructor; [| repeat (constructor; try reflexivity)]).
    constructor.
  - exists t, values. auto.
Defined.

Lemma no_compression_no_work_witness :
  (0 < 1 /\ Sample.np_log 1 == 0) /\
  exists t w,
    net_work
      Sample.h_lin Sample.s_air Sample.np_log Sample.pow Sample.hybrd 1
      = (t, inr w) /\ w == 0.
Proof.
  split; [split; reflexivity|].
  destruct (no_compression_no_work
              Sample.h_lin Sample.s_air Sample.np_log Sample.pow Sample.hybrd
              1) as (_ & _ & H).
  - reflexivity.
  - reflexivity.
  - evaluate.
  - evaluate.
  - evaluate.
  - evaluate.
  - exact sample_entropy_injective.
  - intros x y Hxy. exact Hxy.
  - exact H.
Defined.

Lemma bottoming_gain_witness :
  0 < 2 /\
  exists t l k,
    calculate_efficiencies_comb_locals
      Sample.h_lin Sample.s_air Sample.np_log Sample.hybrd 2 = (t, inr l) /\
    Comb.rankine l = Some k /\
    Rankine.w_rankine k == 0.3653 * Rankine.q_to_rankine k.
Proof.
  split; [reflexivity|].
  destruct (bottoming_gain
              Sample.h_lin Sample.s_air Sample.np_log Sample.hybrd 2)
    as (t & l & E & Hgain);
    [reflexivity | evaluate | evaluate | evaluate |].
  destruct Hgain as (k & Ek & Hw & _).
  - remember (calculate_efficiencies_comb_locals
                Sample.h_lin Sample.s_air Sample.np_log Sample.hybrd 2)
      as m eqn:Em.
    vm_compute in Em. subst m. injection E as _ <-.
    vm_compute. discriminate.
  - exists t, l, k. auto.
Defined.

Lemma stack_guard_is_idle_witness :
  0 < 2 /\
  exists t l k,
    calculate_efficiencies_comb_locals
      Sample.h_lin Sample.s_air Sample.np_log Sample.hybrd 2 = (t, inr l) /\
    Comb.rankine l = Some k /\
    Rankine.q_to_rankine k = Comb.h4 l - Sample.h_lin T_stack /\
    Comb.eta_brayton l < Comb.eta_combined l.
Proof.
  split; [reflexivity|].
  destruct (stack_guard_is_idle
              Sample.h_lin Sample.s_air Sample.np_log Sample.hybrd 2)
    as (t & l & E & Hidle);
    [reflexivity | evaluate | evaluate | evaluate
     | intros x y Hxy; exact Hxy |].
  assert (Hfacts : Sample.h_lin (Comb.T4_real l) == Comb.h4 l /\
                   T4_limit <= Comb.T4_real l /\ 0 < Comb.q_in_brayton l).
  { remember (calculate_efficiencies_comb_locals
                Sample.h_lin Sample.s_air Sample.np_log Sample.hybrd 2)
      as m eqn:Em.
    vm_compute in Em. subst m. injection E as _ <-.
    split; [evaluate|]. split; [vm_compute; discriminate | evaluate]. }
  destruct Hfacts as (Hroot & Hge & Hq).
  destruct (Hidle Hroot Hge) as (k & Ek & Hqr & _ & Hgain).
  exists t, l, k. auto.
Defined.

Lemma combined_brayton_agrees_witness :
  0 < 2 /\
  exists t t' l v,
    calculate_efficiencies_comb_locals
      Sample.h_lin Sample.s_air Sample.np_log Sample.hybrd 2 = (t, inr l) /\
    thermal_efficiency
      Sample.h_lin Sample.s_air Sample.np_log Sample.pow Sample.hybrd 2
      = (t', inr v) /\
    Comb.eta_brayton l == v * 100.
Proof.
  split; [reflexivity|].
  destruct (combined_brayton_agrees
              Sample.h_lin Sample.s_air Sample.np_log Sample.pow Sample.hybrd
              2) as (t & t' & l & v & E & E' & _ & _ & Hb).
  - reflexivity.
  - evaluate.
  - evaluate.
  - evaluate.
  - evaluate.
  - evaluate.
  - evaluate.
  - evaluate.
  - evaluate.
  - evaluate.
  - exact sample_entropy_injective.
  - intros x y Hxy. exact Hxy.
  - exists t, t', l, v. auto.
Defined.

Lemma sweep_returns_iff_witness :
  (forall r, In r [1; 2; 150] -> 0 < r) /\
  exists t res,
    net_work_sweep
      Sample.h_lin Sample.s_air Sample.np_log Sample.pow Sample.hybrd
      [1; 2; 150] = (t, inr res).
Proof.
  assert (Hpos : forall r, In r [1; 2; 150] -> 0 < r).
  { intros r [<- | [<- | [<- | []]]]; reflexivity. }
  split; [exact Hpos|].
  apply (sweep_returns_iff
           Sample.h_lin Sample.s_air Sample.np_log Sample.pow Sample.hybrd
           [1; 2; 150] Hpos).
  split; [discriminate|].
  intros r [<- | [<- | [<- | []]]]; split; evaluate.
Defined.

Lemma linspace_samples_witness :
  List.length r_values_2 = 12%nat /\
  (forall i j xi xj, (i < j)%nat ->
     nth_error r_values_2 i = Some xi ->
     nth_error r_values_2 j = Some xj -> xi < xj) /\
  (forall r, In r r_values_2 -> 2 <= r /\ r <= 30).
Proof.
  destruct (linspace_samples 2 30 12) as (Hlen & _ & _ & Hinc & Hin);
    [lia | reflexivity |].
  split; [exact Hlen|]. split; [exact Hinc | exact Hin].
Defined.

(** * The interpolants on sample tables *)

(** A table that gives the temperature 300 twice, once as [300] and once as
    [300.0]: the table is loaded without a message, and the run ends at the
    first [interp1d]. *)
Lemma repeated_temperature_stops_the_run_witness :
  exists m,
    data Sample.repeated_file (fun _ => true) re_findall_numbers py_float
      = ([], inr m) /\
    ~ NoDupA Qeq (T_data m) /\
    exists msg,
      interpolants Sample.repeated_file (fun _ => true) re_findall_numbers
        py_float Sample.make_interp_spline
      = ([], inl (PyExn ValueError msg)).
Proof.
  remember (data Sample.repeated_file (fun _ => true) re_findall_numbers
              py_float) as d eqn:Ed.
  vm_compute in Ed. subst d. eexists. split; [reflexivity|].
  assert (Hrep : ~ NoDupA Qeq [300 # 1; 3000 # 10]).
  { intros Hnd. inversion Hnd as [| ? ? Hnot _]; subst.
    apply Hnot. constructor. reflexivity. }
  split; [exact Hrep|].
  eapply (repeated_temperature_stops_the_run
            Sample.repeated_file (fun _ => true) re_findall_numbers py_float
            Sample.make_interp_spline []);
    [vm_compute; reflexivity | exact Hrep].
Defined.

(** Two points given with the higher temperature first: the stand-in
    spline receives them in rising order. *)
Lemma interp1d_sorts_the_points_witness :
  NoDupA Qeq [1200; 300] /\
  interp1d Sample.make_interp_spline [1200; 300] [1277.81; 300.47]
    = Sample.make_interp_spline [300; 1200] [300.47; 1277.81] /\
  exists xx yy,
    interp1d Sample.make_interp_spline [1200; 300] [1277.81; 300.47]
      = Sample.make_interp_spline xx yy /\
    Permutation (combine xx yy) (combine [1200; 300] [1277.81; 300.47]) /\
    List.length xx = List.length yy /\
    StronglySorted Qlt xx.
Proof.
  assert (Hnd : NoDupA Qeq [1200; 300]).
  { constructor; [| constructor; [| constructor]].
    - intros Hin. inversion Hin as [? ? Heq | ? ? Hin']; subst;
        [discriminate Heq | inversion Hin'].
    - intros Hin. inversion Hin. }
  split; [exact Hnd|]. split; [reflexivity|].
  apply (interp1d_sorts_the_points Sample.make_interp_spline
           [1200; 300] [1277.81; 300.47]); [reflexivity | exact Hnd].
Defined.
